(** * Schematizer: Redshift-to-Avro converter and schema repository

    A shallow embedding of
    - [schematizer/components/converters/redshift_to_avro_converter.py] and
    - [schematizer/logic/schema_repository.py],
    together with the properties of the schema-lifecycle core. *)

From Stdlib Require Import ZArith.
From stdpp Require Import base option list sorting strings gmap.

Local Open Scope string_scope.
Local Open Scope Z_scope.
Local Open Scope list_scope.

(** ** Outcomes of Python calls

    A call either returns a value or raises.  The exception classes are the
    ones the two modules raise or let through. *)

Inductive exn : Type :=
  | SchemaConversionException
  | UnsupportedTypeException
  | BuilderException
  | ValueError
  | EntityNotFoundException
  | IncompatibleSchemaException
  | MissingDocException
  | IntegrityError
  | MultipleResultsFound
  | AttributeError.

Inductive result (A : Type) : Type :=
  | Ok (a : A)
  | Raise (e : exn).
Arguments Ok {A} a.
Arguments Raise {A} e.

#[global] Instance exn_eq_dec : EqDecision exn.
Proof. solve_decision. Defined.

(** Stateful code threads a store [S]; an exception leaves the store as the
    statements before the [raise] mutated it. *)
Definition M (S A : Type) : Type := S → result A * S.

Definition ret {S A} (a : A) : M S A := λ s, (Ok a, s).
Definition raise {S A} (e : exn) : M S A := λ s, (Raise e, s).
Definition bind {S A B} (m : M S A) (k : A → M S B) : M S B :=
  λ s, match m s with
       | (Ok a, s') => k a s'
       | (Raise e, s') => (Raise e, s')
       end.

Declare Scope py_scope.
Delimit Scope py_scope with py.
Notation "'let!' x ':=' m 'in' k" := (bind m (λ x, k))
  (at level 10, x name, m at level 100, k at level 200) : py_scope.
Notation "'let!' ( x , y ) ':=' m 'in' k" :=
  (bind m (λ xy, let x := fst xy in let y := snd xy in k))
  (at level 10, x name, y name, m at level 100, k at level 200) : py_scope.
Notation "m '>>' k" := (bind m (λ _, k))
  (at level 100, k at level 200, right associativity) : py_scope.

(** [for x in xs: body x] *)
Fixpoint for_each {S A} (xs : list A) (body : A → M S unit) : M S unit :=
  match xs with
  | [] => ret tt
  | x :: xs' => (body x >> for_each xs' body)%py
  end.

(** ** Python values seen by the converter *)

Inductive PyScalar : Type :=
  | PyNone
  | PyBool (b : bool)
  | PyInt (z : Z)
  | PyStr (s : string).

#[global] Instance PyScalar_eq_dec : EqDecision PyScalar.
Proof. solve_decision. Defined.

(** [bool(v)] *)
Definition scalar_truthy (v : PyScalar) : bool :=
  match v with
  | PyNone => false
  | PyBool b => b
  | PyInt z => negb (Z.eqb z 0)
  | PyStr s => negb (String.eqb s "")
  end.

(** [v is not None] *)
Definition is_not_None (v : PyScalar) : bool :=
  match v with PyNone => false | _ => true end.

(** Values of the metadata dictionaries (table, column, record and field). *)
Inductive MetaValue : Type :=
  | MInt (z : Z)
  | MBool (b : bool)
  | MStr (s : string)
  | MStrs (l : list string).

#[global] Instance MetaValue_eq_dec : EqDecision MetaValue.
Proof. solve_decision. Defined.

(** ** The Redshift-to-Avro converter *)

Module Converter.

(** Modelled from the spec: [schematizer.models.redshift_data_types] is not
    part of the sources at hand.  The classes are the Redshift tags of the
    type-mapping table; numeric/decimal types carry [precision] and [scale],
    character types carry [length]. *)
Inductive RedshiftType : Type :=
  | RedshiftFloat4 | RedshiftReal
  | RedshiftFloat | RedshiftDouble | RedshiftFloat8
  | RedshiftInt2 | RedshiftInt4 | RedshiftSmallInt | RedshiftInteger
  | RedshiftInt8 | RedshiftBigInt
  | RedshiftNumeric (precision scale : Z)
  | RedshiftDecimal (precision scale : Z)
  | RedshiftBool | RedshiftBoolean
  | RedshiftNChar (length : Z) | RedshiftBPChar (length : Z)
  | RedshiftChar (length : Z) | RedshiftCharacter (length : Z)
  | RedshiftNVarChar (length : Z) | RedshiftCharacterVarying (length : Z)
  | RedshiftVarChar (length : Z) | RedshiftText (length : Z)
  | RedshiftDate
  | RedshiftTime
  | RedshiftTimestamp.

#[global] Instance RedshiftType_eq_dec : EqDecision RedshiftType.
Proof. solve_decision. Defined.

(** [column.type.precision], [column.type.scale], [column.type.length] *)
Definition type_precision (t : RedshiftType) : Z :=
  match t with
  | RedshiftNumeric p _ | RedshiftDecimal p _ => p
  | _ => 0
  end.
Definition type_scale (t : RedshiftType) : Z :=
  match t with
  | RedshiftNumeric _ s | RedshiftDecimal _ s => s
  | _ => 0
  end.
Definition type_length (t : RedshiftType) : Z :=
  match t with
  | RedshiftNChar n | RedshiftBPChar n | RedshiftChar n | RedshiftCharacter n
  | RedshiftNVarChar n | RedshiftCharacterVarying n | RedshiftVarChar n
  | RedshiftText n => n
  | _ => 0
  end.

(** Modelled from the spec: the keys of [MetaDataKey] (table and column
    metadata) and of [AvroMetaDataKeys] (the sidecar vocabulary); both
    modules are outside the sources at hand. *)
Module MetaDataKey.
Definition NAMESPACE : string := "namespace".
Definition ALIASES : string := "aliases".
End MetaDataKey.

Module AvroMetaDataKeys.
Definition PRIMARY_KEY : string := "primary_key".
Definition FIXED_POINT : string := "fixed_pt".
Definition PRECISION : string := "precision".
Definition SCALE : string := "scale".
Definition FIX_LEN : string := "fix_len".
Definition MAX_LEN : string := "max_len".
Definition DATE : string := "date".
Definition TIME : string := "time".
Definition TIMESTAMP : string := "timestamp".
End AvroMetaDataKeys.

(** Modelled from the spec: [SQLColumn] and [SQLTable] of
    [schematizer.models.sql_entities] (section 4.2, input), with the
    attributes the converter reads.  [primary_key_order] is [None] or an
    integer; [primary_keys] is the table's derived list of key columns. *)
Record SQLColumn : Type := {
  column_name : string;
  column_type : RedshiftType;
  column_primary_key_order : option Z;
  column_is_nullable : bool;
  column_default_value : PyScalar;
  column_doc : option string;
  column_metadata : gmap string MetaValue;
}.

Record SQLTable : Type := {
  table_name : string;
  table_doc : option string;
  table_metadata : gmap string MetaValue;
  table_columns : list SQLColumn;
  table_primary_keys : list SQLColumn;
}.

(** What [convert] may be handed: Python is untyped, so any object. *)
Inductive PyObject : Type :=
  | PyAtom (v : PyScalar)
  | PyList (l : list PyScalar)
  | PyColumn (c : SQLColumn)
  | PyTable (t : SQLTable).

(** [bool(obj)]: [SQLTable] and [SQLColumn] are plain objects, hence true. *)
Definition truthy (o : PyObject) : bool :=
  match o with
  | PyAtom v => scalar_truthy v
  | PyList l => match l with [] => false | _ => true end
  | PyColumn _ => true
  | PyTable _ => true
  end.

(** [isinstance(obj, SQLTable)] *)
Definition isinstance_SQLTable (o : PyObject) : option SQLTable :=
  match o with PyTable t => Some t | _ => None end.

(** *** The Avro schema builder *)

(** Modelled from the spec: [yelp_avro.avro_builder.AvroSchemaBuilder] is an
    external package; section 4.1 describes it.  One record is built per
    [begin_record → add_field* → end] session.  A type is a primitive's name
    or a two-branch union; a field keeps what [add_field] was given. *)
Inductive AvroType : Type :=
  | AvroPrimitive (name : string)
  | AvroUnion (first second : AvroType).

Record AvroField : Type := {
  field_name : string;
  field_type : AvroType;
  field_has_default : bool;
  field_default_value : PyScalar;
  field_aliases : option MetaValue;
  field_doc : option string;
  field_extras : gmap string MetaValue;
}.

Record AvroRecord : Type := {
  record_name : string;
  record_namespace : MetaValue;
  record_aliases : option MetaValue;
  record_doc : option string;
  record_extras : gmap string MetaValue;
  record_fields : list AvroField;
}.

(** The builder's state: the record under construction, if any. *)
Definition AvroSchemaBuilder : Type := option AvroRecord.

(** [AvroSchemaBuilder()] *)
Definition new_builder : AvroSchemaBuilder := None.

(** Modelled from the spec: [begin_record] opens the outer record, extras
    becoming its top-level properties, and fails if a record is already
    open. *)
Definition begin_record (name : string) (namespace : MetaValue)
    (aliases : option MetaValue) (doc : option string)
    (extras : gmap string MetaValue) : M AvroSchemaBuilder unit :=
  λ b, match b with
       | Some _ => (Raise BuilderException, b)
       | None => (Ok tt, Some {| record_name := name;
                                 record_namespace := namespace;
                                 record_aliases := aliases;
                                 record_doc := doc;
                                 record_extras := extras;
                                 record_fields := [] |})
       end.

(** Modelled from the spec: [create_<primitive>()] returns the primitive. *)
Definition create_int : AvroType := AvroPrimitive "int".
Definition create_long : AvroType := AvroPrimitive "long".
Definition create_float : AvroType := AvroPrimitive "float".
Definition create_double : AvroType := AvroPrimitive "double".
Definition create_boolean : AvroType := AvroPrimitive "boolean".
Definition create_string : AvroType := AvroPrimitive "string".
Definition create_null : AvroType := AvroPrimitive "null".

(** Modelled from the spec: [begin_nullable_type(inner, default).end()] is a
    two-branch union, null branch first when [default] is null, non-null
    branch first otherwise. *)
Definition begin_nullable_type (inner : AvroType) (default : PyScalar)
    : AvroType :=
  match default with
  | PyNone => AvroUnion create_null inner
  | _ => AvroUnion inner create_null
  end.

Definition with_fields (r : AvroRecord) (fields : list AvroField)
    : AvroRecord :=
  {| record_name := record_name r;
     record_namespace := record_namespace r;
     record_aliases := record_aliases r;
     record_doc := record_doc r;
     record_extras := record_extras r;
     record_fields := fields |}.

(** Modelled from the spec: [add_field] appends a field to the open record,
    the extras copied on the field. *)
Definition add_field (name : string) (typ : AvroType) (has_default : bool)
    (default_value : PyScalar) (aliases : option MetaValue)
    (doc : option string) (extras : gmap string MetaValue)
    : M AvroSchemaBuilder unit :=
  λ b, match b with
       | None => (Raise BuilderException, b)
       | Some r =>
           let f := {| field_name := name; field_type := typ;
                       field_has_default := has_default;
                       field_default_value := default_value;
                       field_aliases := aliases; field_doc := doc;
                       field_extras := extras |} in
           (Ok tt, Some (with_fields r (record_fields r ++ [f])))
       end.

(** Modelled from the spec: [end()] closes the session and returns the
    finished record. *)
Definition builder_end : M AvroSchemaBuilder AvroRecord :=
  λ b, match b with
       | None => (Raise BuilderException, b)
       | Some r => (Ok r, None)
       end.

(** *** [RedshiftToAvroConverter] *)

(** The converter object's state is its private [_builder]. *)
Definition Conv (A : Type) : Type := M AvroSchemaBuilder A.

Definition _get_table_metadata (table : SQLTable) : gmap string MetaValue :=
  let metadata : gmap string MetaValue := ∅ in
  let primary_keys := column_name <$> table_primary_keys table in
  match primary_keys with
  | [] => metadata
  | _ => <[AvroMetaDataKeys.PRIMARY_KEY := MStrs primary_keys]> metadata
  end.

(** [{PRIMARY_KEY: primary_key_order} if primary_key_order else {}] *)
Definition _get_primary_key_metadata (primary_key_order : option Z)
    : gmap string MetaValue :=
  match primary_key_order with
  | Some z => if Z.eqb z 0 then ∅
              else {[AvroMetaDataKeys.PRIMARY_KEY := MInt z]}
  | None => ∅
  end.

Definition _get_precision_metadata (column : SQLColumn)
    : gmap string MetaValue :=
  <[AvroMetaDataKeys.PRECISION := MInt (type_precision (column_type column))]>
    (<[AvroMetaDataKeys.SCALE := MInt (type_scale (column_type column))]> ∅).

Definition _convert_small_integer_type (column : SQLColumn) :=
  let metadata := _get_primary_key_metadata (column_primary_key_order column) in
  (create_int, metadata).

Definition _convert_bigint_type (column : SQLColumn) :=
  let metadata := _get_primary_key_metadata (column_primary_key_order column) in
  (create_long, metadata).

Definition _convert_boolean_type (column : SQLColumn) :=
  let metadata := _get_primary_key_metadata (column_primary_key_order column) in
  (create_boolean, metadata).

Definition _convert_double_type (column : SQLColumn) :=
  let metadata := _get_primary_key_metadata (column_primary_key_order column) in
  (create_double, metadata).

Definition _convert_float_type (column : SQLColumn) :=
  let metadata := _get_primary_key_metadata (column_primary_key_order column) in
  (create_float, metadata).

(** [dict.update(other)]: the keys of [other] win. *)
Definition dict_update (d other : gmap string MetaValue)
    : gmap string MetaValue := other ∪ d.

Definition _convert_decimal_type (column : SQLColumn) :=
  let metadata := _get_primary_key_metadata (column_primary_key_order column) in
  let metadata :=
    dict_update metadata {[AvroMetaDataKeys.FIXED_POINT := MBool true]} in
  let metadata := dict_update metadata (_get_precision_metadata column) in
  (create_double, metadata).

Definition _convert_char_type (column : SQLColumn) :=
  let metadata := _get_primary_key_metadata (column_primary_key_order column) in
  let metadata :=
    <[AvroMetaDataKeys.FIX_LEN := MInt (type_length (column_type column))]>
      metadata in
  (create_string, metadata).

Definition _convert_varchar_type (column : SQLColumn) :=
  let metadata := _get_primary_key_metadata (column_primary_key_order column) in
  let metadata :=
    <[AvroMetaDataKeys.MAX_LEN := MInt (type_length (column_type column))]>
      metadata in
  (create_string, metadata).

Definition _convert_date_type (column : SQLColumn) :=
  let metadata := _get_primary_key_metadata (column_primary_key_order column) in
  let metadata := <[AvroMetaDataKeys.DATE := MBool true]> metadata in
  (create_int, metadata).

Definition _convert_time_type (column : SQLColumn) :=
  let metadata := _get_primary_key_metadata (column_primary_key_order column) in
  let metadata := <[AvroMetaDataKeys.TIME := MBool true]> metadata in
  (create_int, metadata).

Definition _convert_timestamp_type (column : SQLColumn) :=
  let metadata := _get_primary_key_metadata (column_primary_key_order column) in
  let metadata := <[AvroMetaDataKeys.TIMESTAMP := MBool true]> metadata in
  (create_long, metadata).

(** The dispatch dictionary, keyed by the class of [column.type];
    [_type_converters.get(type_cls)] is [None] for a class that is no key. *)
Definition _type_converters (type_cls : RedshiftType)
    : option (SQLColumn → AvroType * gmap string MetaValue) :=
  match type_cls with
  | RedshiftFloat4 => Some _convert_float_type
  | RedshiftReal => Some _convert_float_type

  | RedshiftFloat => Some _convert_double_type
  | RedshiftDouble => Some _convert_double_type
  | RedshiftFloat8 => Some _convert_double_type

  | RedshiftInt2 => Some _convert_small_integer_type
  | RedshiftInt4 => Some _convert_small_integer_type
  | RedshiftSmallInt => Some _convert_small_integer_type
  | RedshiftInteger => Some _convert_small_integer_type

  | RedshiftInt8 => Some _convert_bigint_type
  | RedshiftBigInt => Some _convert_bigint_type

  | RedshiftNumeric _ _ => Some _convert_decimal_type
  | RedshiftDecimal _ _ => Some _convert_decimal_type

  | RedshiftBool => Some _convert_boolean_type
  | RedshiftBoolean => Some _convert_boolean_type

  | RedshiftNChar _ => Some _convert_char_type
  | RedshiftBPChar _ => Some _convert_char_type
  | RedshiftChar _ => Some _convert_char_type
  | RedshiftCharacter _ => Some _convert_char_type

  | RedshiftNVarChar _ => Some _convert_varchar_type
  | RedshiftCharacterVarying _ => Some _convert_varchar_type
  | RedshiftVarChar _ => Some _convert_varchar_type
  | RedshiftText _ => Some _convert_varchar_type

  | RedshiftDate => Some _convert_date_type
  | RedshiftTimestamp => Some _convert_timestamp_type

  | RedshiftTime => None
  end.

Definition _create_avro_field_type (column : SQLColumn)
    : Conv (AvroType * gmap string MetaValue) :=
  let type_cls := column_type column in
  match _type_converters type_cls with
  | Some convert_func => ret (convert_func column)
  | None => raise UnsupportedTypeException
  end.

Definition _create_avro_field (column : SQLColumn) : Conv unit :=
  (let! (field_type, field_metadata) := _create_avro_field_type column in
   let field_type :=
     if column_is_nullable column
     then begin_nullable_type field_type (column_default_value column)
     else field_type in
   add_field
     (column_name column)
     field_type
     (is_not_None (column_default_value column) || column_is_nullable column)
     (column_default_value column)
     (column_metadata column !! MetaDataKey.ALIASES)
     (column_doc column)
     field_metadata)%py.

Definition _create_avro_record_json (table : SQLTable) : Conv AvroRecord :=
  (let namespace :=
     default (MStr "") (table_metadata table !! MetaDataKey.NAMESPACE) in
   let aliases := table_metadata table !! MetaDataKey.ALIASES in
   let metadata := _get_table_metadata table in
   begin_record (table_name table) namespace aliases (table_doc table)
     metadata >>
   for_each (table_columns table) _create_avro_field >>
   let! record_json := builder_end in
   ret record_json)%py.

(** [convert] returns [None] or the Avro record. *)
Definition convert (src_schema : PyObject) : Conv (option AvroRecord) :=
  if negb (truthy src_schema) then ret None
  else match isinstance_SQLTable src_schema with
       | None => raise SchemaConversionException
       | Some table =>
           (let! r := _create_avro_record_json table in ret (Some r))%py
       end.

(** What the field emitted for a column has to look like: name and default
    passed through, [has_default] as the default rule says, and as its type
    the very type [_create_avro_field_type] gives the column, a primitive:
    bare for a column that is not nullable, wrapped in a two-branch union
    with [null] for a nullable one (null branch first when the default is
    [None]). *)
Definition field_of_column (c : SQLColumn) (f : AvroField) : Prop :=
  field_name f = column_name c ∧
  (field_has_default f = true ↔
     column_default_value c ≠ PyNone ∨ column_is_nullable c = true) ∧
  field_default_value f = column_default_value c ∧
  ∃ typ metadata name,
    (∀ b, _create_avro_field_type c b = (Ok (typ, metadata), b)) ∧
    typ = AvroPrimitive name ∧
    field_type f =
      if column_is_nullable c
      then (if decide (column_default_value c = PyNone)
            then AvroUnion (AvroPrimitive "null") typ
            else AvroUnion typ (AvroPrimitive "null"))
      else typ.

(** The field [_create_avro_field] hands to [add_field] for a column whose
    type is converted by [convert_func]. *)
Definition emitted_field (c : SQLColumn)
    (convert_func : SQLColumn → AvroType * gmap string MetaValue)
    : AvroField :=
  {| field_name := column_name c;
     field_type :=
       if column_is_nullable c
       then begin_nullable_type (convert_func c).1 (column_default_value c)
       else (convert_func c).1;
     field_has_default :=
       is_not_None (column_default_value c) || column_is_nullable c;
     field_default_value := column_default_value c;
     field_aliases := column_metadata c !! MetaDataKey.ALIASES;
     field_doc := column_doc c;
     field_extras := (convert_func c).2 |}.

(** The record [begin_record] opens for a table. *)
Definition opened_record (t : SQLTable) : AvroRecord :=
  {| record_name := table_name t;
     record_namespace :=
       default (MStr "") (table_metadata t !! MetaDataKey.NAMESPACE);
     record_aliases := table_metadata t !! MetaDataKey.ALIASES;
     record_doc := table_doc t;
     record_extras := _get_table_metadata t;
     record_fields := [] |}.

End Converter.

(** ** The schema repository *)

Module Repository.

(** *** Rows of the four relations ([schematizer.models]) *)

Inductive AvroSchemaStatus : Type := READ_AND_WRITE | READ_ONLY | DISABLED.

#[global] Instance AvroSchemaStatus_eq_dec : EqDecision AvroSchemaStatus.
Proof. solve_decision. Defined.

Record Domain : Type := {
  domain_id : Z;
  domain_namespace : string;
  domain_source : string;
  domain_owner_email : string;
}.

Record Topic : Type := {
  topic_id : Z;
  topic_name : string;
  topic_domain_id : Z;
}.

Record AvroSchema (Json : Type) : Type := {
  schema_id : Z;
  schema_avro_schema_json : Json;
  schema_topic_id : Z;
  schema_status : AvroSchemaStatus;
  schema_base_schema_id : option Z;
}.
Arguments schema_id {Json} _.
Arguments schema_avro_schema_json {Json} _.
Arguments schema_topic_id {Json} _.
Arguments schema_status {Json} _.
Arguments schema_base_schema_id {Json} _.

(** An element object has no [id] and no [avro_schema_id] until it is added
    to the session. *)
Record AvroSchemaElement : Type := {
  element_id : option Z;
  element_avro_schema_id : option Z;
  element_type : string;
  element_key : string;
  element_doc : option string;
}.

(** The database as the ambient [session] sees it. *)
Record Session (Json : Type) : Type := {
  domains : list Domain;
  topics : list Topic;
  avro_schemas : list (AvroSchema Json);
  avro_schema_elements : list AvroSchemaElement;
}.
Arguments domains {Json} _.
Arguments topics {Json} _.
Arguments avro_schemas {Json} _.
Arguments avro_schema_elements {Json} _.

(** The parts of the code base the repository calls into and that are not
    among the sources at hand: schema validation and flattening in
    [models.AvroSchema], and [SchemaCompatibilityValidator].  The schema JSON
    is any type with decidable equality (Python's [==]). *)
Class Models (Json : Type) : Type := {
  json_eq_dec :: EqDecision Json;
  (** [models.AvroSchema.verify_avro_schema]: [(is_valid, error)] *)
  verify_avro_schema : Json → bool * option string;
  (** [models.AvroSchema.create_schema_elements_from_json] *)
  create_schema_elements_from_json : Json → list AvroSchemaElement;
  (** [SchemaCompatibilityValidator.is_backward_compatible] *)
  validator_is_backward_compatible : Json → Json → bool;
}.

(** *** Query helpers *)

(** The id a freshly inserted row gets from its auto-increment key. *)
Definition next_id (ids : list Z) : Z := 1 + foldr Z.max 0 ids.

(** [query.first()] *)
Definition first {A} (rows : list A) : option A := head rows.

(** [query.order_by(key.desc()).first()] *)
Definition first_by_desc {A} (key : A → Z) (rows : list A) : option A :=
  foldl (λ best r,
           match best with
           | Some b => if decide (key b < key r) then Some r else Some b
           | None => Some r
           end) None rows.

(** [query.order_by(key).all()] *)
Definition order_by {A} (key : A → Z) (rows : list A) : list A :=
  @merge_sort A (λ a b, key a ≤ key b) (λ a b, decide (key a ≤ key b)) rows.

(** A read-only query run against the session. *)
Definition query {S A} (q : S → A) : M S A := λ s, (Ok (q s), s).

Section Operations.
Context {Json : Type} `{Models Json}.

Local Abbreviation Session := (Session Json).
Local Abbreviation AvroSchema := (AvroSchema Json).
Local Abbreviation Repo := (M Session).

Definition is_backward_compatible (old_schema_json new_schema_json : Json)
    : bool :=
  validator_is_backward_compatible old_schema_json new_schema_json.

Definition is_forward_compatible (old_schema_json new_schema_json : Json)
    : bool :=
  validator_is_backward_compatible new_schema_json old_schema_json.

Definition is_full_compatible (old_schema_json new_schema_json : Json)
    : bool :=
  is_backward_compatible old_schema_json new_schema_json &&
  is_forward_compatible old_schema_json new_schema_json.

Definition get_domain_by_fullname (namespace source : string) (st : Session)
    : option Domain :=
  first (filter (λ d, domain_namespace d = namespace ∧
                      domain_source d = source) (domains st)).

Definition get_topic_by_name (topic_name' : string) (st : Session)
    : option Topic :=
  first (filter (λ t, topic_name t = topic_name') (topics st)).

Definition get_schema_by_id (schema_id' : Z) (st : Session)
    : option AvroSchema :=
  first (filter (λ s, schema_id s = schema_id') (avro_schemas st)).

(** [session.add(domain)] inside [session.begin_nested()].  The unique index
    on [(namespace, source)] makes the insert raise [IntegrityError] when
    the pair exists; the savepoint is then rolled back and the existing row
    re-read. *)
Definition _create_domain_if_not_exist (namespace source owner_email : string)
    : Repo (option Domain) :=
  λ st,
    if decide (Exists (λ d, domain_namespace d = namespace ∧
                            domain_source d = source) (domains st))
    then (Ok (get_domain_by_fullname namespace source st), st)
    else
      let domain := {| domain_id := next_id (domain_id <$> domains st);
                       domain_namespace := namespace;
                       domain_source := source;
                       domain_owner_email := owner_email |} in
      (Ok (Some domain),
       {| domains := domains st ++ [domain];
          topics := topics st;
          avro_schemas := avro_schemas st;
          avro_schema_elements := avro_schema_elements st |}).

(** [query.one()] raises [NoResultFound] (handled here) or
    [MultipleResultsFound] (not handled). *)
Definition _get_domain_or_create (namespace source owner_email : string)
    : Repo (option Domain) :=
  λ st,
    match filter (λ d, domain_namespace d = namespace ∧
                       domain_source d = source) (domains st) with
    | [] => _create_domain_if_not_exist namespace source owner_email st
    | [d] => (Ok (Some d), st)
    | _ => (Raise MultipleResultsFound, st)
    end.

(** The locking queries are built ([domain.id] and [topic.id] are read) and
    then dropped without being run. *)
Definition _lock_domain (domain : option Domain) : Repo unit :=
  match domain with
  | None => raise AttributeError
  | Some _ => ret tt
  end.

Definition _lock_topic_and_schemas (topic : option Topic) : Repo unit :=
  match topic with
  | None => ret tt
  | Some _ => ret tt
  end.

Definition get_latest_topic_of_domain (namespace source : string)
    : Repo (option Topic) :=
  λ st,
    match get_domain_by_fullname namespace source st with
    | None => (Raise EntityNotFoundException, st)
    | Some domain =>
        (Ok (first_by_desc topic_id
               (filter (λ t, topic_domain_id t = domain_id domain)
                       (topics st))), st)
    end.

Definition get_schemas_by_topic_name (topic_name' : string)
    (include_disabled : bool) : Repo (list AvroSchema) :=
  λ st,
    match get_topic_by_name topic_name' st with
    | None => (Raise EntityNotFoundException, st)
    | Some topic =>
        let qry := filter (λ s, schema_topic_id s = topic_id topic)
                          (avro_schemas st) in
        let qry := if negb include_disabled
                   then filter (λ s, schema_status s ≠ DISABLED) qry
                   else qry in
        (Ok (order_by schema_id qry), st)
    end.

Definition get_schemas_by_topic_id (topic_id' : Z) (include_disabled : bool)
    (st : Session) : list AvroSchema :=
  let qry := filter (λ s, schema_topic_id s = topic_id') (avro_schemas st) in
  let qry := if negb include_disabled
             then filter (λ s, schema_status s ≠ DISABLED) qry
             else qry in
  order_by schema_id qry.

(** The loop of [is_schema_compatible_in_topic], with its early [return
    False].  The text column [avro_schema] parsed by [simplejson.loads] is
    the row's [avro_schema_json]. *)
Fixpoint compatible_with_each (enabled_schemas : list AvroSchema)
    (target_schema : Json) : bool :=
  match enabled_schemas with
  | [] => true
  | enabled_schema :: rest =>
      let schema_json := schema_avro_schema_json enabled_schema in
      if negb (is_full_compatible schema_json target_schema) then false
      else compatible_with_each rest target_schema
  end.

Definition is_schema_compatible_in_topic (target_schema : Json)
    (topic_name' : string) : Repo bool :=
  (let! enabled_schemas := get_schemas_by_topic_name topic_name' false in
   ret (compatible_with_each enabled_schemas target_schema))%py.

(** [uuid.uuid4().hex] is the call's random input [uuid4_hex]. *)
Definition _construct_topic_name (namespace source uuid4_hex : string)
    : string :=
  String.concat "." [namespace; source; uuid4_hex].

(** [session.add(topic); session.flush()]: the unique index on the name makes
    the flush raise [IntegrityError] for a name already taken. *)
Definition _create_topic (topic_name' : string) (domain : option Domain)
    : Repo Topic :=
  λ st,
    match domain with
    | None => (Raise AttributeError, st)
    | Some domain =>
        if decide (Exists (λ t, topic_name t = topic_name') (topics st))
        then (Raise IntegrityError, st)
        else
          let topic := {| topic_id := next_id (topic_id <$> topics st);
                          topic_name := topic_name';
                          topic_domain_id := domain_id domain |} in
          (Ok topic,
           {| domains := domains st;
              topics := topics st ++ [topic];
              avro_schemas := avro_schemas st;
              avro_schema_elements := avro_schema_elements st |})
    end.

Definition get_latest_schema_by_topic_id (topic_id' : Z) (st : Session)
    : option AvroSchema :=
  first_by_desc schema_id
    (filter (λ s, schema_topic_id s = topic_id' ∧ schema_status s ≠ DISABLED)
            (avro_schemas st)).

(** [o.element_type in required_doc_element_types and not o.doc] *)
Definition required_doc_element_types : list string := ["record"; "field"].

Definition not_doc (doc : option string) : bool :=
  match doc with
  | None => true
  | Some d => String.eqb d ""
  end.

Definition lacks_required_doc (o : AvroSchemaElement) : bool :=
  bool_decide (element_type o ∈ required_doc_element_types) &&
  not_doc (element_doc o).

(** [session.add(avro_schema_element)] for each element, then one flush:
    the rows get consecutive fresh ids. *)
Fixpoint add_elements (avro_schema_id : Z) (elements : list AvroSchemaElement)
    (rows : list AvroSchemaElement) : list AvroSchemaElement :=
  match elements with
  | [] => rows
  | e :: rest =>
      let row := {| element_id :=
                      Some (next_id (omap element_id rows));
                    element_avro_schema_id := Some avro_schema_id;
                    element_type := element_type e;
                    element_key := element_key e;
                    element_doc := element_doc e |} in
      add_elements avro_schema_id rest (rows ++ [row])
  end.

Definition _create_avro_schema (avro_schema_json : Json) (topic_id' : Z)
    (status : AvroSchemaStatus) (base_schema_id : option Z)
    : Repo AvroSchema :=
  λ st,
    let avro_schema_elements' :=
      create_schema_elements_from_json avro_schema_json in
    if existsb lacks_required_doc avro_schema_elements'
    then (Raise MissingDocException, st)
    else
      let avro_schema :=
        {| schema_id := next_id (schema_id <$> avro_schemas st);
           schema_avro_schema_json := avro_schema_json;
           schema_topic_id := topic_id';
           schema_status := status;
           schema_base_schema_id := base_schema_id |} in
      (Ok avro_schema,
       {| domains := domains st;
          topics := topics st;
          avro_schemas := avro_schemas st ++ [avro_schema];
          avro_schema_elements :=
            add_elements (schema_id avro_schema) avro_schema_elements'
                         (avro_schema_elements st) |}).

(** [register]: the defaults [status=READ_AND_WRITE] and
    [base_schema_id=None] are passed by the caller. *)
Definition create_avro_schema_from_avro_json (avro_schema_json : Json)
    (namespace source domain_owner_email : string)
    (status : AvroSchemaStatus) (base_schema_id : option Z)
    (uuid4_hex : string) : Repo AvroSchema :=
  (let (is_valid, error) := verify_avro_schema avro_schema_json in
   if negb is_valid then raise ValueError
   else
     let! domain :=
       _get_domain_or_create namespace source domain_owner_email in
     _lock_domain domain >>
     let! topic := get_latest_topic_of_domain namespace source in
     _lock_topic_and_schemas topic >>
     let! topic :=
       match topic with
       | None =>
           let topic_name := _construct_topic_name namespace source uuid4_hex in
           _create_topic topic_name domain
       | Some topic =>
           let! compatible :=
             is_schema_compatible_in_topic avro_schema_json (topic_name topic) in
           if negb compatible then
             let topic_name :=
               _construct_topic_name namespace source uuid4_hex in
             _create_topic topic_name domain
           else ret topic
       end in
     let! latest_schema := query (get_latest_schema_by_topic_id (topic_id topic)) in
     match latest_schema with
     | Some latest_schema =>
         if bool_decide (schema_avro_schema_json latest_schema = avro_schema_json)
            && bool_decide (schema_base_schema_id latest_schema = base_schema_id)
         then ret latest_schema
         else _create_avro_schema avro_schema_json (topic_id topic) status
                base_schema_id
     | None =>
         _create_avro_schema avro_schema_json (topic_id topic) status
           base_schema_id
     end)%py.

Definition is_schema_compatible (target_schema : Json)
    (namespace source : string) : Repo bool :=
  (let! topic := get_latest_topic_of_domain namespace source in
   match topic with
   | None => ret true
   | Some topic => is_schema_compatible_in_topic target_schema (topic_name topic)
   end)%py.

(** [query.filter(id == schema_id).update({'status': status})] *)
Definition _update_schema_status (schema_id' : Z) (status : AvroSchemaStatus)
    : Repo unit :=
  λ st,
    (Ok tt,
     {| domains := domains st;
        topics := topics st;
        avro_schemas :=
          (λ s, if decide (schema_id s = schema_id')
                then {| schema_id := schema_id s;
                        schema_avro_schema_json := schema_avro_schema_json s;
                        schema_topic_id := schema_topic_id s;
                        schema_status := status;
                        schema_base_schema_id := schema_base_schema_id s |}
                else s) <$> avro_schemas st;
        avro_schema_elements := avro_schema_elements st |}).

Definition mark_schema_disabled (schema_id' : Z) : Repo unit :=
  _update_schema_status schema_id' DISABLED.

Definition mark_schema_readonly (schema_id' : Z) : Repo unit :=
  _update_schema_status schema_id' READ_ONLY.

Definition get_latest_schema_by_topic_name (topic_name' : string)
    : Repo (option AvroSchema) :=
  λ st,
    match get_topic_by_name topic_name' st with
    | None => (Raise EntityNotFoundException, st)
    | Some topic =>
        (Ok (first_by_desc schema_id
               (filter (λ s, schema_topic_id s = topic_id topic ∧
                             schema_status s ≠ DISABLED)
                       (avro_schemas st))), st)
    end.

Definition get_domains (st : Session) : list Domain :=
  order_by domain_id (domains st).

(** [query(Domain.namespace).distinct().all()]: the database fixes no order
    for the distinct values. *)
Definition get_namespaces (st : Session) : list string :=
  remove_dups (domain_namespace <$> domains st).

Definition get_domains_by_namespace (namespace : string) (st : Session)
    : list Domain :=
  order_by domain_id
    (filter (λ d, domain_namespace d = namespace) (domains st)).

Definition get_topics_by_domain_id (domain_id' : Z) (st : Session)
    : list Topic :=
  order_by topic_id
    (filter (λ t, topic_domain_id t = domain_id') (topics st)).

Definition get_domain_by_id (domain_id' : Z) (st : Session) : option Domain :=
  first (filter (λ d, domain_id d = domain_id') (domains st)).

Definition get_latest_topic_of_domain_id (domain_id' : Z) (st : Session)
    : option Topic :=
  first_by_desc topic_id
    (filter (λ t, topic_domain_id t = domain_id') (topics st)).

(** The two decisions in the body of [create_avro_schema_from_avro_json],
    named so that the proofs can treat them one at a time: which topic the
    schema goes to, and whether the latest schema is returned or a new one
    is inserted. *)
Definition target_topic (avro_schema_json : Json)
    (namespace source uuid4_hex : string) (domain : option Domain)
    (topic : option Topic) : Repo Topic :=
  match topic with
  | None =>
      let topic_name := _construct_topic_name namespace source uuid4_hex in
      _create_topic topic_name domain
  | Some topic =>
      (let! compatible :=
         is_schema_compatible_in_topic avro_schema_json (topic_name topic) in
       if negb compatible then
         let topic_name := _construct_topic_name namespace source uuid4_hex in
         _create_topic topic_name domain
       else ret topic)%py
  end.

Definition latest_or_new (avro_schema_json : Json) (topic_id' : Z)
    (status : AvroSchemaStatus) (base_schema_id : option Z)
    : Repo AvroSchema :=
  (let! latest_schema := query (get_latest_schema_by_topic_id topic_id') in
   match latest_schema with
   | Some latest_schema =>
       if bool_decide (schema_avro_schema_json latest_schema = avro_schema_json)
          && bool_decide (schema_base_schema_id latest_schema = base_schema_id)
       then ret latest_schema
       else _create_avro_schema avro_schema_json topic_id' status
              base_schema_id
   | None =>
       _create_avro_schema avro_schema_json topic_id' status base_schema_id
   end)%py.

End Operations.

(** [after] is the row [before] with the status of schema [id] set to
    [status]: rows with another id are untouched, the row with this id
    changes in its status column only. *)
Definition status_set_to {Json} (id : Z) (status : AvroSchemaStatus)
    (before after : AvroSchema Json) : Prop :=
  schema_id after = schema_id before ∧
  schema_avro_schema_json after = schema_avro_schema_json before ∧
  schema_topic_id after = schema_topic_id before ∧
  schema_base_schema_id after = schema_base_schema_id before ∧
  schema_status after =
    if decide (schema_id before = id) then status else schema_status before.

(** What the keys and indices of the four relations guarantee: primary keys
    are unique, [(namespace, source)] and the topic name are unique, a topic
    belongs to a stored domain and a schema to a stored topic. *)
Record consistent {Json} (st : Session Json) : Prop := {
  domain_ids_unique : NoDup (domain_id <$> domains st);
  domain_pairs_unique :
    NoDup ((λ d, (domain_namespace d, domain_source d)) <$> domains st);
  topic_ids_unique : NoDup (topic_id <$> topics st);
  topic_names_unique : NoDup (topic_name <$> topics st);
  schema_ids_unique : NoDup (schema_id <$> avro_schemas st);
  topics_have_domain :
    ∀ t, t ∈ topics st → ∃ d, d ∈ domains st ∧ domain_id d = topic_domain_id t;
  schemas_have_topic :
    ∀ s, s ∈ avro_schemas st →
         ∃ t, t ∈ topics st ∧ topic_id t = schema_topic_id s;
}.

(** Every stored element of type record or field has a doc. *)
Definition documented {Json} (st : Session Json) : Prop :=
  Forall (λ e, lacks_required_doc e = false) (avro_schema_elements st).

(** [s] is the row [s0] with another status. *)
Definition with_status {Json} (status : AvroSchemaStatus) (s0 : AvroSchema Json)
    : AvroSchema Json :=
  {| schema_id := schema_id s0;
     schema_avro_schema_json := schema_avro_schema_json s0;
     schema_topic_id := schema_topic_id s0;
     schema_status := status;
     schema_base_schema_id := schema_base_schema_id s0 |}.

End Repository.

(** ** Sample inputs *)

Module Samples.
Import Converter.

Definition column (name : string) (type : RedshiftType) : SQLColumn :=
  {| column_name := name; column_type := type;
     column_primary_key_order := None; column_is_nullable := false;
     column_default_value := PyNone; column_doc := Some "a column";
     column_metadata := ∅ |}.

Definition nullable_column (name : string) (type : RedshiftType)
    (default : PyScalar) : SQLColumn :=
  {| column_name := name; column_type := type;
     column_primary_key_order := None; column_is_nullable := true;
     column_default_value := default; column_doc := Some "a column";
     column_metadata := ∅ |}.

Definition table (columns : list SQLColumn) : SQLTable :=
  {| table_name := "t"; table_doc := Some "a table";
     table_metadata := ∅; table_columns := columns;
     table_primary_keys := [] |}.

(** A table with a single [TIME] column. *)
Definition opening_hours : SQLTable :=
  table [column "opens_at" RedshiftTime].

(** Columns of the supported types, nullable or not, with or without a
    default. *)
Definition prices : SQLTable :=
  table [column "id" RedshiftInt8;
         nullable_column "price" (RedshiftDecimal 10 2) PyNone;
         nullable_column "qty" RedshiftInteger (PyInt 1)].

(** A table with a key column, character columns, a nullable decimal and
    date/time columns. *)
Definition order_id : SQLColumn :=
  {| column_name := "id"; column_type := RedshiftInt8;
     column_primary_key_order := Some 1; column_is_nullable := false;
     column_default_value := PyNone; column_doc := Some "order id";
     column_metadata := {[MetaDataKey.ALIASES := MStrs ["order_id"]]} |}.

Definition orders : SQLTable :=
  {| table_name := "orders"; table_doc := Some "orders";
     table_metadata := {[MetaDataKey.NAMESPACE := MStr "shop"]};
     table_columns :=
       [order_id;
        column "name" (RedshiftVarChar 32);
        column "code" (RedshiftChar 3);
        nullable_column "price" (RedshiftDecimal 10 2) PyNone;
        column "day" RedshiftDate;
        column "created_at" RedshiftTimestamp];
     table_primary_keys := [order_id] |}.

(** A good column followed by a [TIME] column. *)
Definition shifts : SQLTable :=
  table [column "id" RedshiftInt8; column "starts_at" RedshiftTime].

End Samples.

Module RepositorySamples.
Import Repository.

Definition element (type key : string) (doc : option string)
    : AvroSchemaElement :=
  {| element_id := None; element_avro_schema_id := None;
     element_type := type; element_key := key; element_doc := doc |}.

(** Schemas given by their canonical text.  Every text is taken as valid
    Avro; a text starting with [?] flattens to a record whose field [x] has
    an empty doc, any other text to a fully documented record; two schemas
    are compatible exactly when they are equal. *)
#[export] Instance text_models : Models string := {|
  verify_avro_schema := λ _, (true, None);
  create_schema_elements_from_json := λ j,
    [element "record" "u" (Some "d");
     element "field" "u|x" (if String.prefix "?" j then Some "" else Some "d")];
  validator_is_backward_compatible := String.eqb;
|}.

Definition empty_session : Session string :=
  {| domains := []; topics := []; avro_schemas := [];
     avro_schema_elements := [] |}.

Definition domain_n_s : Domain :=
  {| domain_id := 1; domain_namespace := "n"; domain_source := "s";
     domain_owner_email := "owner@example.org" |}.

Definition topic_1 : Topic :=
  {| topic_id := 1; topic_name := "n.s.0a"; topic_domain_id := 1 |}.

Definition schema (id : Z) (json : string) (status : AvroSchemaStatus)
    : AvroSchema string :=
  {| schema_id := id; schema_avro_schema_json := json;
     schema_topic_id := 1; schema_status := status;
     schema_base_schema_id := None |}.

(** A domain without any topic. *)
Definition domain_only : Session string :=
  {| domains := [domain_n_s]; topics := []; avro_schemas := [];
     avro_schema_elements := [] |}.

(** One domain, one topic, the given schemas. *)
Definition one_topic (schemas : list (AvroSchema string)) : Session string :=
  {| domains := [domain_n_s]; topics := [topic_1];
     avro_schemas := schemas; avro_schema_elements := [] |}.

(** Three registrations in a row: a first schema for a new pair, then an
    incompatible one, then an undocumented one. *)
Definition first_run : result (AvroSchema string) * Session string :=
  create_avro_schema_from_avro_json "u" "n" "s" "owner@example.org"
    READ_AND_WRITE None "0a" empty_session.

Definition rollover_run : result (AvroSchema string) * Session string :=
  create_avro_schema_from_avro_json "v" "n" "s" "owner@example.org"
    READ_AND_WRITE None "0b" first_run.2.

Definition undocumented_run : result (AvroSchema string) * Session string :=
  create_avro_schema_from_avro_json "?u" "n" "s" "owner@example.org"
    READ_AND_WRITE None "0c" rollover_run.2.

(** A validator that rejects the texts starting with [!]. *)
Definition strict_models : Models string := {|
  verify_avro_schema := λ j,
    if String.prefix "!" j then (false, Some "not a schema") else (true, None);
  create_schema_elements_from_json := λ j,
    [element "record" "u" (Some "d"); element "field" "u|x" (Some "d")];
  validator_is_backward_compatible := String.eqb;
|}.

(** Schemas that are compatible when their texts start with the same
    character. *)
Definition same_family (a b : string) : bool :=
  match a, b with
  | String x _, String y _ => Ascii.eqb x y
  | _, _ => false
  end.

Definition family_models : Models string := {|
  verify_avro_schema := λ _, (true, None);
  create_schema_elements_from_json := λ j,
    [element "record" "u" (Some "d"); element "field" "u|x" (Some "d")];
  validator_is_backward_compatible := same_family;
|}.

(** A compatible evolution: [ub] registered into the topic that holds
    [ua]. *)
Definition family_run : result (AvroSchema string) * Session string :=
  create_avro_schema_from_avro_json (H := family_models) "ub" "n" "s"
    "owner@example.org" READ_ONLY None "0b"
    (one_topic [schema 1 "ua" READ_AND_WRITE]).

(** One topic with an enabled, a disabled and a read-only schema. *)
Definition three_schemas : Session string :=
  one_topic [schema 1 "u" READ_AND_WRITE; schema 2 "v" DISABLED;
             schema 3 "u" READ_ONLY].

End RepositorySamples.

(** ** Running a sequence of calls *)

Lemma bind_run {S A B} (m : M S A) (k : A → M S B) (s s' : S) (a : A) :
  m s = (Ok a, s') → bind m k s = k a s'.
Proof. intros Hm. unfold bind. by rewrite Hm. Qed.

Lemma bind_raise {S A B} (m : M S A) (k : A → M S B) (s s' : S) (e : exn) :
  m s = (Raise e, s') → bind m k s = (Raise e, s').
Proof. intros Hm. unfold bind. by rewrite Hm. Qed.

(** ** Properties of the converter *)

Section ConverterFacts.
Import Converter.

Lemma _create_avro_field_type_supported column b :
  _type_converters (column_type column) ≠ None →
  ∃ typ md, _create_avro_field_type column b = (Ok (typ, md), b) ∧
            ∃ name, typ = AvroPrimitive name.
Proof.
  intros Hsup. unfold _create_avro_field_type.
  destruct (column_type column); simpl in *; try done;
    eexists _, _; (split; [reflexivity|]); eexists; reflexivity.
Qed.

Lemma _create_avro_field_type_time column b :
  column_type column = RedshiftTime →
  _create_avro_field_type column b = (Raise UnsupportedTypeException, b).
Proof. intros Ht. unfold _create_avro_field_type. by rewrite Ht. Qed.

Lemma is_not_None_true v : is_not_None v = true ↔ v ≠ PyNone.
Proof. destruct v; simpl; split; congruence. Qed.

Lemma _create_avro_field_ok c b b' :
  _create_avro_field c b = (Ok tt, b') →
  ∃ r f, b = Some r ∧ b' = Some (with_fields r (record_fields r ++ [f])) ∧
         field_of_column c f.
Proof.
  unfold _create_avro_field, bind, _create_avro_field_type.
  destruct (_type_converters (column_type c)) as [conv|] eqn:Hconv;
    [|discriminate].
  assert (∃ name, (conv c).1 = AvroPrimitive name) as [name Hname].
  { destruct (column_type c); simpl in Hconv; inversion Hconv;
      eexists; reflexivity. }
  simpl. unfold add_field. destruct b as [r|]; [|discriminate].
  intros [= <-]. eexists r, _. split; [done|]. split; [done|].
  unfold field_of_column; simpl.
  split; [done|]. split.
  { rewrite orb_true_iff, is_not_None_true. done. }
  split; [done|]. exists (conv c).1, (conv c).2, name.
  split; [|split; [done|]].
  - intros b0. unfold _create_avro_field_type, ret. rewrite Hconv.
    by destruct (conv c).
  - unfold begin_nullable_type, create_null.
    destruct (column_is_nullable c); [|done].
    destruct (column_default_value c); by case_decide.
Qed.

Lemma with_fields_fields r fs : record_fields (with_fields r fs) = fs.
Proof. done. Qed.

Lemma with_fields_twice r fs gs :
  with_fields (with_fields r fs) gs = with_fields r gs.
Proof. done. Qed.

Lemma for_each_create_avro_field_ok cols : ∀ r b',
  for_each cols _create_avro_field (Some r) = (Ok tt, b') →
  ∃ fs, b' = Some (with_fields r (record_fields r ++ fs)) ∧
        Forall2 field_of_column cols fs.
Proof.
  induction cols as [|c cols IH]; intros r b'; simpl.
  - intros [= <-]. exists []. rewrite app_nil_r. by destruct r.
  - unfold bind at 1.
    destruct (_create_avro_field c (Some r)) as [[[]|e] b1] eqn:Hc;
      [|discriminate].
    apply _create_avro_field_ok in Hc as (r0 & f & [= <-] & -> & Hf).
    intros Hrest. apply IH in Hrest as (fs & -> & Hfs).
    exists (f :: fs). split; [|by constructor].
    by rewrite with_fields_twice, with_fields_fields, <- app_assoc.
Qed.

Lemma convert_ok_fields (t : SQLTable) (b b' : AvroSchemaBuilder)
    (r : AvroRecord) :
  convert (PyTable t) b = (Ok (Some r), b') →
  Forall2 field_of_column (table_columns t) (record_fields r).
Proof.
  unfold convert; simpl. unfold bind at 1.
  destruct (_create_avro_record_json t b) as [[r0|e] b0] eqn:Hrec;
    [|discriminate].
  intros [= -> ->]. revert Hrec.
  unfold _create_avro_record_json, bind at 1.
  unfold begin_record. destruct b as [open|]; [discriminate|].
  match goal with |- context [Some ?r1] => set (start := r1) end.
  unfold bind at 1.
  destruct (for_each (table_columns t) _create_avro_field (Some start))
    as [[[]|e] b1] eqn:Hloop; [|discriminate].
  apply for_each_create_avro_field_ok in Hloop as (fs & -> & Hfs).
  unfold bind, builder_end, ret. intros [= <- <-]. done.
Qed.

Lemma for_each_create_avro_field_supported cols : ∀ r,
  Forall (λ c, _type_converters (column_type c) ≠ None) cols →
  ∃ r', for_each cols _create_avro_field (Some r) = (Ok tt, Some r').
Proof.
  induction cols as [|c cols IH]; intros r Hsup; [by eexists|].
  apply Forall_cons in Hsup as [Hc Hsup].
  destruct (_create_avro_field_type_supported c (Some r) Hc)
    as (ty & md & Hty & _).
  simpl. unfold bind at 1, _create_avro_field, bind. rewrite Hty. simpl.
  by apply IH.
Qed.

(** C8.  A table whose column types all have a converter is converted, and
    every field emitted for a column has [has_default] true exactly when the
    column's [default_value] is not [None] or the column is nullable; the
    field of a nullable column has its primitive type wrapped in a two-branch
    union with [null] (null branch first when the default is [None]), the
    field of any other column keeps the bare primitive. *)
Theorem convert_fields_has_default (t : SQLTable) :
  Forall (λ c, _type_converters (column_type c) ≠ None) (table_columns t) →
  ∃ r, convert (PyTable t) new_builder = (Ok (Some r), new_builder) ∧
       Forall2 field_of_column (table_columns t) (record_fields r).
Proof.
  intros Hsup.
  assert (∃ r, convert (PyTable t) new_builder = (Ok (Some r), new_builder))
    as [r Hr].
  { destruct (for_each_create_avro_field_supported _
      {| record_name := table_name t;
         record_namespace :=
           default (MStr "") (table_metadata t !! MetaDataKey.NAMESPACE);
         record_aliases := table_metadata t !! MetaDataKey.ALIASES;
         record_doc := table_doc t;
         record_extras := _get_table_metadata t;
         record_fields := [] |} Hsup) as [r' Hr'].
    exists r'. unfold convert; simpl.
    erewrite bind_run; [reflexivity|].
    unfold _create_avro_record_json.
    erewrite bind_run; [|reflexivity].
    erewrite bind_run; [|exact Hr']. reflexivity. }
  exists r. split; [done|]. by eapply convert_ok_fields.
Qed.

Lemma convert_fields_has_default_witness :
  ∃ r, convert (PyTable Samples.prices) new_builder
       = (Ok (Some r), new_builder) ∧
       Forall2 field_of_column (table_columns Samples.prices)
               (record_fields r).
Proof.
  apply (convert_fields_has_default Samples.prices).
  simpl. repeat constructor; discriminate.
Defined.

(** C1.  A table with a column of type [TIME]: [convert] raises
    [UnsupportedTypeException], because [_type_converters] has no entry for
    the class, although [_convert_time_type] would map the column to [int]
    with [time=true]. *)
Theorem convert_time_column_unsupported :
  fst (convert (PyTable Samples.opening_hours) new_builder)
    = Raise UnsupportedTypeException ∧
  _type_converters RedshiftTime = None ∧
  _convert_time_type (Samples.column "opens_at" RedshiftTime)
    = (AvroPrimitive "int", {[AvroMetaDataKeys.TIME := MBool true]}).
Proof. split; [reflexivity|]. split; reflexivity. Qed.

(** The same for every table: a column of type [TIME] stops the loop over
    the columns. *)
Lemma for_each_time_column_unsupported cols : ∀ r,
  Exists (λ c, column_type c = RedshiftTime) cols →
  ∃ b', for_each cols _create_avro_field (Some r)
        = (Raise UnsupportedTypeException, b').
Proof.
  induction cols as [|c cols IH]; intros r Hex; [by inversion Hex|].
  simpl. unfold bind at 1.
  destruct (decide (column_type c = RedshiftTime)) as [Ht|Hnt].
  - unfold _create_avro_field, bind.
    rewrite (_create_avro_field_type_time _ _ Ht). by eexists.
  - inversion Hex as [? ? Hc|? ? Hrest]; subst; [done|].
    destruct (_create_avro_field_type_supported c (Some r)) as (ty & md & Hty & _).
    { unfold _type_converters. by destruct (column_type c). }
    unfold _create_avro_field, bind. rewrite Hty. simpl.
    apply IH. done.
Qed.

(** X7.  On a fresh converter, a table that has a column of type [TIME]
    anywhere among its columns makes [convert] raise
    [UnsupportedTypeException]. *)
Lemma convert_time_column_raises (t : SQLTable) :
  Exists (λ c, column_type c = RedshiftTime) (table_columns t) →
  (convert (PyTable t) new_builder).1 = Raise UnsupportedTypeException.
Proof.
  intros Hex.
  destruct (for_each_time_column_unsupported _
    {| record_name := table_name t;
       record_namespace :=
         default (MStr "") (table_metadata t !! MetaDataKey.NAMESPACE);
       record_aliases := table_metadata t !! MetaDataKey.ALIASES;
       record_doc := table_doc t;
       record_extras := _get_table_metadata t;
       record_fields := [] |} Hex) as [b' Hb'].
  unfold convert; simpl.
  erewrite bind_raise; [reflexivity|].
  unfold _create_avro_record_json.
  erewrite bind_run; [|reflexivity].
  erewrite bind_raise; [reflexivity|exact Hb'].
Qed.

(** C9.  [convert] on anything that is not a table: a falsy input ([None],
    but also [False], [0], the empty string, the empty list) yields [None],
    every other input raises [SchemaConversionException].  The builder is
    not touched. *)
Theorem convert_non_table (o : PyObject) (b : AvroSchemaBuilder) :
  isinstance_SQLTable o = None →
  convert o b =
    (if truthy o then Raise SchemaConversionException else Ok None, b).
Proof.
  intros Hnt. unfold convert. destruct (truthy o); simpl; [|done].
  by rewrite Hnt.
Qed.

Lemma convert_non_table_witness :
  convert (PyAtom (PyInt 7)) new_builder
    = (Raise SchemaConversionException, new_builder) ∧
  convert (PyAtom PyNone) new_builder = (Ok None, new_builder).
Proof.
  split.
  - apply (convert_non_table (PyAtom (PyInt 7)) new_builder). reflexivity.
  - apply (convert_non_table (PyAtom PyNone) new_builder). reflexivity.
Defined.

(** The empty string is neither [None] nor a table, and [convert] returns
    [None] for it instead of raising. *)
Lemma convert_empty_string_no_error :
  ¬ (∀ (o : PyObject) (b : AvroSchemaBuilder),
       o ≠ PyAtom PyNone → isinstance_SQLTable o = None →
       fst (convert o b) = Raise SchemaConversionException).
Proof.
  intros Hclaim.
  specialize (Hclaim (PyAtom (PyStr "")) new_builder).
  simpl in Hclaim. discriminate Hclaim; done.
Qed.

End ConverterFacts.

(** ** Properties of the repository *)

Section RepositoryFacts.
Import Repository.
Context {Json : Type} `{Models Json}.

Local Abbreviation Session := (Session Json).
Local Abbreviation AvroSchema := (AvroSchema Json).

(** *** Compatibility *)

(** C7.  [is_forward_compatible a b] holds exactly when
    [is_backward_compatible b a] does: both ask the validator the same
    question. *)
Theorem forward_backward_duality (a b : Json) :
  is_forward_compatible a b = true ↔ is_backward_compatible b a = true.
Proof. unfold is_forward_compatible, is_backward_compatible. done. Qed.

Lemma compatible_with_each_Forall (l : list AvroSchema) (target : Json) :
  compatible_with_each l target = true ↔
  Forall (λ e, is_full_compatible (schema_avro_schema_json e) target = true) l.
Proof.
  induction l as [|e l IH]; simpl.
  - split; [constructor|done].
  - destruct (is_full_compatible (schema_avro_schema_json e) target) eqn:He;
      simpl.
    + rewrite IH. split; [by constructor|by inversion 1].
    + split; [done|]. inversion 1; congruence.
Qed.

Lemma order_by_elem_of {A} (key : A → Z) (rows : list A) (x : A) :
  x ∈ order_by key rows ↔ x ∈ rows.
Proof. unfold order_by. by rewrite merge_sort_Permutation. Qed.

Lemma get_schemas_by_topic_name_enabled name t (st : Session) :
  get_topic_by_name name st = Some t →
  ∃ l, get_schemas_by_topic_name name false st = (Ok l, st) ∧
       ∀ e, e ∈ l ↔ e ∈ avro_schemas st ∧ schema_topic_id e = topic_id t ∧
                     schema_status e ≠ DISABLED.
Proof.
  intros Ht. unfold get_schemas_by_topic_name. rewrite Ht. simpl.
  eexists. split; [reflexivity|]. intros e.
  rewrite order_by_elem_of, !list_elem_of_filter. tauto.
Qed.

Lemma is_schema_compatible_in_topic_run (target : Json) (name : string)
    (t : Topic) (st : Session) :
  get_topic_by_name name st = Some t →
  ∃ b, is_schema_compatible_in_topic target name st = (Ok b, st) ∧
       (b = true ↔
          ∀ e, e ∈ avro_schemas st → schema_topic_id e = topic_id t →
               schema_status e ≠ DISABLED →
               is_full_compatible (schema_avro_schema_json e) target = true).
Proof.
  intros Ht.
  destruct (get_schemas_by_topic_name_enabled name t st Ht) as (l & Hl & Hin).
  unfold is_schema_compatible_in_topic, bind. rewrite Hl.
  eexists. split; [reflexivity|].
  rewrite compatible_with_each_Forall, Forall_forall. split.
  - intros Hall e ? ? ?. apply Hall, Hin. done.
  - intros Hall e He. apply Hin in He as (? & ? & ?). by apply Hall.
Qed.

(** C6.  For a topic that exists, [is_schema_compatible_in_topic] returns
    normally, and returns true exactly when the candidate is fully compatible
    with every enabled schema of the topic; with no enabled schema the answer
    is true. *)
Theorem is_schema_compatible_in_topic_spec (target : Json) (name : string)
    (t : Topic) (st : Session) :
  get_topic_by_name name st = Some t →
  ∃ b, is_schema_compatible_in_topic target name st = (Ok b, st) ∧
       (b = true ↔
          ∀ e, e ∈ avro_schemas st → schema_topic_id e = topic_id t →
               schema_status e ≠ DISABLED →
               is_full_compatible (schema_avro_schema_json e) target = true) ∧
       ((∀ e, e ∈ avro_schemas st → schema_topic_id e = topic_id t →
              schema_status e = DISABLED) → b = true).
Proof.
  intros Ht.
  destruct (is_schema_compatible_in_topic_run target name t st Ht)
    as (b & Hrun & Hiff).
  exists b. split; [done|]. split; [done|].
  intros Hnone. apply Hiff. intros e He Htid Hen.
  destruct Hen. by apply Hnone.
Qed.

(** *** Queries on lists of rows *)

Lemma filter_none {A} (P : A → Prop) `{∀ x, Decision (P x)} (l : list A) :
  (∀ x, x ∈ l → ¬ P x) → filter P l = [].
Proof.
  induction l as [|x l IH]; intros Hall; [done|].
  rewrite filter_cons_False by (apply Hall; left).
  apply IH. intros y Hy. apply Hall. by right.
Qed.

Lemma filter_snoc_True {A} (P : A → Prop) `{∀ x, Decision (P x)}
    (l : list A) (x : A) :
  P x → filter P (l ++ [x]) = filter P l ++ [x].
Proof. intros HP. rewrite filter_app. f_equal. by rewrite filter_cons_True. Qed.

Lemma next_id_gt (ids : list Z) (x : Z) : x ∈ ids → x < next_id ids.
Proof.
  unfold next_id. induction ids as [|y ids IH]; [by inversion 1|].
  simpl. inversion 1; subst; [lia|]. specialize (IH ltac:(done)). lia.
Qed.

Lemma first_by_desc_snoc {A} (key : A → Z) (l : list A) (x : A) :
  first_by_desc key (l ++ [x]) =
    match first_by_desc key l with
    | Some b => if decide (key b < key x) then Some x else Some b
    | None => Some x
    end.
Proof. unfold first_by_desc. by rewrite foldl_app. Qed.

Lemma first_by_desc_elem_of {A} (key : A → Z) (l : list A) (x : A) :
  first_by_desc key l = Some x → x ∈ l.
Proof.
  induction l as [|y l IH] using rev_ind; [done|].
  rewrite first_by_desc_snoc.
  destruct (first_by_desc key l) as [b|] eqn:Hb.
  - case_decide; intros [= <-]; set_solver.
  - intros [= <-]. set_solver.
Qed.

Lemma first_by_desc_snoc_max {A} (key : A → Z) (l : list A) (x : A) :
  (∀ y, y ∈ l → key y < key x) → first_by_desc key (l ++ [x]) = Some x.
Proof.
  intros Hmax. rewrite first_by_desc_snoc.
  destruct (first_by_desc key l) as [b|] eqn:Hb; [|done].
  apply first_by_desc_elem_of in Hb. rewrite decide_True; [done|].
  by apply Hmax.
Qed.

(** *** The convenience check *)

(** C4.  When the domain of [(namespace, source)] exists and has no topic,
    [is_schema_compatible] returns true for every target schema, raises
    nothing and leaves the session alone. *)
Theorem is_schema_compatible_no_topic (target : Json)
    (namespace source : string) (d : Domain) (st : Session) :
  get_domain_by_fullname namespace source st = Some d →
  (∀ t, t ∈ topics st → topic_domain_id t ≠ domain_id d) →
  is_schema_compatible target namespace source st = (Ok true, st).
Proof.
  intros Hd Hnone.
  unfold is_schema_compatible, bind, get_latest_topic_of_domain.
  rewrite Hd. by rewrite filter_none.
Qed.

(** X20.  For a pair that has no domain row at all, [is_schema_compatible]
    raises [EntityNotFoundException] instead of returning true; the session
    is left alone. *)
Lemma is_schema_compatible_unknown_domain (target : Json)
    (namespace source : string) (st : Session) :
  get_domain_by_fullname namespace source st = None →
  is_schema_compatible target namespace source st
    = (Raise EntityNotFoundException, st).
Proof.
  intros Hd. unfold is_schema_compatible, bind, get_latest_topic_of_domain.
  by rewrite Hd.
Qed.

(** *** Status updates *)

Lemma _update_schema_status_absent (id : Z) (status : AvroSchemaStatus)
    (st : Session) :
  (∀ s, s ∈ avro_schemas st → schema_id s ≠ id) →
  _update_schema_status id status st = (Ok tt, st).
Proof.
  intros Habs. unfold _update_schema_status. destruct st as [ds ts ss es].
  simpl in *. do 2 f_equal.
  induction ss as [|s ss IH]; [done|]. rewrite fmap_cons.
  rewrite decide_False by (apply Habs; left).
  f_equal. apply IH. intros s' Hs'. apply Habs. by right.
Qed.

(** C10.  For an id that no stored schema has, [mark_schema_disabled] and
    [mark_schema_readonly] return normally and leave the whole session as it
    was. *)
Theorem mark_unknown_schema_unchanged (id : Z) (st : Session) :
  (∀ s, s ∈ avro_schemas st → schema_id s ≠ id) →
  mark_schema_disabled id st = (Ok tt, st) ∧
  mark_schema_readonly id st = (Ok tt, st).
Proof.
  intros Habs. unfold mark_schema_disabled, mark_schema_readonly.
  split; by apply _update_schema_status_absent.
Qed.

Lemma _update_schema_status_rows (id : Z) (status : AvroSchemaStatus)
    (st : Session) :
  Forall2 (status_set_to id status) (avro_schemas st)
          (avro_schemas (_update_schema_status id status st).2).
Proof.
  simpl. induction (avro_schemas st) as [|s ss IH]; [constructor|].
  rewrite fmap_cons. constructor; [|done].
  unfold status_set_to. by case_decide.
Qed.

(** C3.  The admin operations set the status unconditionally:
    [mark_schema_readonly] turns the status of the schema with the given id
    into [READ_ONLY] and [mark_schema_disabled] turns it into [DISABLED],
    whatever it was before; the other columns of the row, every other
    schema and the other relations stay as they were, so no operation ever
    produces [READ_AND_WRITE]. *)
Theorem admin_status_transitions (id : Z) (st : Session) :
  let ro := mark_schema_readonly id st in
  let dis := mark_schema_disabled id st in
  ro.1 = Ok tt ∧ dis.1 = Ok tt ∧
  Forall2 (status_set_to id READ_ONLY) (avro_schemas st) (avro_schemas ro.2) ∧
  Forall2 (status_set_to id DISABLED) (avro_schemas st) (avro_schemas dis.2) ∧
  (domains ro.2 = domains st ∧ topics ro.2 = topics st ∧
   avro_schema_elements ro.2 = avro_schema_elements st) ∧
  (domains dis.2 = domains st ∧ topics dis.2 = topics st ∧
   avro_schema_elements dis.2 = avro_schema_elements st).
Proof.
  unfold mark_schema_readonly, mark_schema_disabled.
  repeat split; apply _update_schema_status_rows.
Qed.

End RepositoryFacts.

(** ** Properties of registration *)

Section RegistrationFacts.
Import Repository.
Context {Json : Type} `{Models Json}.

Local Abbreviation Session := (Session Json).
Local Abbreviation AvroSchema := (AvroSchema Json).

(** *** The steps of [create_avro_schema_from_avro_json] *)

Lemma _get_domain_or_create_run namespace source owner_email (st st' : Session)
    (r : result (option Domain)) :
  _get_domain_or_create namespace source owner_email st = (r, st') →
  topics st' = topics st ∧ avro_schemas st' = avro_schemas st ∧
  avro_schema_elements st' = avro_schema_elements st ∧
  ((∃ d, r = Ok (Some d) ∧
         filter (λ d, domain_namespace d = namespace ∧
                      domain_source d = source) (domains st') = [d] ∧
         (domains st' = domains st ∨ domains st' = domains st ++ [d])) ∨
   (r = Raise MultipleResultsFound ∧ st' = st ∧
    (1 < length (filter (λ d, domain_namespace d = namespace ∧
                              domain_source d = source) (domains st)))%nat)).
Proof.
  unfold _get_domain_or_create.
  destruct (filter _ (domains st)) as [|d [|d' l]] eqn:Hf.
  - unfold _create_domain_if_not_exist. case_decide as Hex.
    + apply Exists_exists in Hex as (d & Hd & HP).
      assert (d ∈ filter (λ d, domain_namespace d = namespace ∧
                               domain_source d = source) (domains st)) as Hin
        by (by apply list_elem_of_filter).
      rewrite Hf in Hin. by apply elem_of_nil in Hin.
    + intros [= <- <-]. simpl. repeat (split; [done|]). left.
      eexists. split; [done|]. split; [|by right].
      by rewrite filter_snoc_True, Hf.
  - intros [= <- <-]. repeat (split; [done|]). left.
    exists d. split; [done|]. split; [done|by left].
  - intros [= <- <-]. repeat (split; [done|]). right.
    split; [done|]. split; [done|]. simpl. lia.
Qed.

Lemma get_topic_by_name_known (t : Topic) (st : Session) :
  t ∈ topics st →
  ∃ t', get_topic_by_name (topic_name t) st = Some t' ∧ t' ∈ topics st ∧
        topic_name t' = topic_name t.
Proof.
  intros Hin. unfold get_topic_by_name, first.
  destruct (filter _ (topics st)) as [|t' l] eqn:Hf.
  - assert (t ∈ filter (λ t0, topic_name t0 = topic_name t) (topics st)) as Ht
      by (by apply list_elem_of_filter).
    rewrite Hf in Ht. by apply elem_of_nil in Ht.
  - exists t'. split; [done|].
    assert (t' ∈ filter (λ t0, topic_name t0 = topic_name t) (topics st)) as Ht
      by (rewrite Hf; left).
    by apply list_elem_of_filter in Ht as [? ?].
Qed.


Lemma create_avro_schema_from_avro_json_body (J : Json)
    (namespace source owner_email : string) (status : AvroSchemaStatus)
    (base : option Z) (uuid4_hex : string) :
  create_avro_schema_from_avro_json J namespace source owner_email status
    base uuid4_hex =
  if negb (verify_avro_schema J).1 then raise ValueError
  else
    (let! domain := _get_domain_or_create namespace source owner_email in
     _lock_domain domain >>
     let! topic := get_latest_topic_of_domain namespace source in
     _lock_topic_and_schemas topic >>
     let! topic := target_topic J namespace source uuid4_hex domain topic in
     latest_or_new J (topic_id topic) status base)%py.
Proof.
  unfold create_avro_schema_from_avro_json.
  by destruct (verify_avro_schema J) as [[] ?].
Qed.

Lemma target_topic_run (J : Json) (namespace source uuid4_hex : string)
    (d : Domain) (topic : option Topic) (st st' : Session)
    (r : result Topic) :
  (∀ t, topic = Some t → t ∈ topics st) →
  target_topic J namespace source uuid4_hex (Some d) topic st = (r, st') →
  domains st' = domains st ∧ avro_schemas st' = avro_schemas st ∧
  avro_schema_elements st' = avro_schema_elements st ∧
  ((∃ t, topic = Some t ∧ r = Ok t ∧ st' = st ∧
         is_schema_compatible_in_topic J (topic_name t) st = (Ok true, st)) ∨
   (r = Ok {| topic_id := next_id (topic_id <$> topics st);
              topic_name := _construct_topic_name namespace source uuid4_hex;
              topic_domain_id := domain_id d |} ∧
    topics st' =
      topics st ++ [{| topic_id := next_id (topic_id <$> topics st);
                       topic_name :=
                         _construct_topic_name namespace source uuid4_hex;
                       topic_domain_id := domain_id d |}] ∧
    ¬ Exists (λ t, topic_name t =
                   _construct_topic_name namespace source uuid4_hex)
             (topics st)) ∨
   (r = Raise IntegrityError ∧ st' = st ∧
    Exists (λ t, topic_name t =
                 _construct_topic_name namespace source uuid4_hex)
           (topics st))).
Proof.
  intros Hknown.
  assert (∀ r st',
    _create_topic (_construct_topic_name namespace source uuid4_hex) (Some d) st
      = (r, st') →
    domains st' = domains st ∧ avro_schemas st' = avro_schemas st ∧
    avro_schema_elements st' = avro_schema_elements st ∧
    ((r = Ok {| topic_id := next_id (topic_id <$> topics st);
                topic_name := _construct_topic_name namespace source uuid4_hex;
                topic_domain_id := domain_id d |} ∧
      topics st' =
        topics st ++ [{| topic_id := next_id (topic_id <$> topics st);
                         topic_name :=
                           _construct_topic_name namespace source uuid4_hex;
                         topic_domain_id := domain_id d |}] ∧
      ¬ Exists (λ t, topic_name t =
                     _construct_topic_name namespace source uuid4_hex)
               (topics st)) ∨
     (r = Raise IntegrityError ∧ st' = st ∧
      Exists (λ t, topic_name t =
                   _construct_topic_name namespace source uuid4_hex)
             (topics st)))) as Hcreate.
  { intros r0 st0. unfold _create_topic. case_decide as Hex.
    - intros [= <- <-]. repeat (split; [done|]). by right.
    - intros [= <- <-]. simpl. repeat (split; [done|]). by left. }
  unfold target_topic. destruct topic as [t|].
  - destruct (get_topic_by_name_known t st) as (t' & Ht' & _ & _);
      [by apply Hknown|].
    destruct (is_schema_compatible_in_topic_run J (topic_name t) t' st Ht')
      as (b & Hrun & _).
    unfold bind. rewrite Hrun. destruct b; simpl.
    + intros [= <- <-]. repeat (split; [done|]). left. by exists t.
    + intros Hc. apply Hcreate in Hc as (? & ? & ? & Hc).
      repeat (split; [done|]). by right.
  - intros Hc. apply Hcreate in Hc as (? & ? & ? & Hc).
    repeat (split; [done|]). by right.
Qed.

Lemma latest_or_new_run (J : Json) (tid : Z) (status : AvroSchemaStatus)
    (base : option Z) (st st' : Session) (r : result AvroSchema) :
  latest_or_new J tid status base st = (r, st') →
  domains st' = domains st ∧ topics st' = topics st ∧
  ((∃ l, get_latest_schema_by_topic_id tid st = Some l ∧
         schema_avro_schema_json l = J ∧ schema_base_schema_id l = base ∧
         r = Ok l ∧ st' = st) ∨
   (existsb lacks_required_doc (create_schema_elements_from_json J) = true ∧
    r = Raise MissingDocException ∧ st' = st) ∨
   (existsb lacks_required_doc (create_schema_elements_from_json J) = false ∧
    r = Ok {| schema_id := next_id (schema_id <$> avro_schemas st);
              schema_avro_schema_json := J; schema_topic_id := tid;
              schema_status := status; schema_base_schema_id := base |} ∧
    avro_schemas st' =
      avro_schemas st ++
        [{| schema_id := next_id (schema_id <$> avro_schemas st);
            schema_avro_schema_json := J; schema_topic_id := tid;
            schema_status := status; schema_base_schema_id := base |}])).
Proof.
  assert (∀ r st',
    _create_avro_schema J tid status base st = (r, st') →
    domains st' = domains st ∧ topics st' = topics st ∧
    ((existsb lacks_required_doc (create_schema_elements_from_json J) = true ∧
      r = Raise MissingDocException ∧ st' = st) ∨
     (existsb lacks_required_doc (create_schema_elements_from_json J) = false ∧
      r = Ok {| schema_id := next_id (schema_id <$> avro_schemas st);
                schema_avro_schema_json := J; schema_topic_id := tid;
                schema_status := status; schema_base_schema_id := base |} ∧
      avro_schemas st' =
        avro_schemas st ++
          [{| schema_id := next_id (schema_id <$> avro_schemas st);
              schema_avro_schema_json := J; schema_topic_id := tid;
              schema_status := status; schema_base_schema_id := base |}])))
    as Hcreate.
  { intros r0 st0. unfold _create_avro_schema.
    destruct (existsb _ _) eqn:Hdoc; intros [= <- <-]; simpl;
      repeat (split; [done|]); [by left|by right]. }
  unfold latest_or_new, bind, query.
  destruct (get_latest_schema_by_topic_id tid st) as [l|] eqn:Hl.
  - destruct (bool_decide (schema_avro_schema_json l = J)) eqn:HJ;
      [destruct (bool_decide (schema_base_schema_id l = base)) eqn:Hb|];
      simpl.
    + intros [= <- <-]. repeat (split; [done|]). left. exists l.
      apply bool_decide_eq_true in HJ, Hb. done.
    + intros Hc. apply Hcreate in Hc as (? & ? & Hc).
      repeat (split; [done|]). by right.
    + intros Hc. apply Hcreate in Hc as (? & ? & Hc).
      repeat (split; [done|]). by right.
  - intros Hc. apply Hcreate in Hc as (? & ? & Hc).
    repeat (split; [done|]). by right.
Qed.

(** After the domain is resolved, the latest topic of the pair is looked up
    through that same domain row. *)
Lemma get_latest_topic_of_domain_run namespace source (d : Domain)
    (st : Session) :
  filter (λ d, domain_namespace d = namespace ∧ domain_source d = source)
         (domains st) = [d] →
  get_latest_topic_of_domain namespace source st =
    (Ok (first_by_desc topic_id
           (filter (λ t, topic_domain_id t = domain_id d) (topics st))), st).
Proof.
  intros Hf. unfold get_latest_topic_of_domain, get_domain_by_fullname.
  by rewrite Hf.
Qed.

Lemma latest_topic_known (d : Domain) (st : Session) (t : Topic) :
  first_by_desc topic_id
    (filter (λ t, topic_domain_id t = domain_id d) (topics st)) = Some t →
  t ∈ topics st ∧ topic_domain_id t = domain_id d.
Proof.
  intros Ht. apply first_by_desc_elem_of, list_elem_of_filter in Ht. tauto.
Qed.

Lemma latest_schema_known (tid : Z) (st : Session) (s : AvroSchema) :
  get_latest_schema_by_topic_id tid st = Some s →
  s ∈ avro_schemas st ∧ schema_topic_id s = tid ∧ schema_status s ≠ DISABLED.
Proof.
  intros Hs. apply first_by_desc_elem_of, list_elem_of_filter in Hs. tauto.
Qed.

(** *** Deduplication *)

Lemma get_topic_by_name_topics (name : string) (st st' : Session) :
  topics st' = topics st →
  get_topic_by_name name st' = get_topic_by_name name st.
Proof. intros Ht. unfold get_topic_by_name. by rewrite Ht. Qed.

(** A row inserted with an enabled status is the latest enabled schema of
    its topic. *)
Lemma inserted_is_latest (J : Json) (tid : Z) (status : AvroSchemaStatus)
    (base : option Z) (st st' : Session) :
  status ≠ DISABLED →
  avro_schemas st' =
    avro_schemas st ++
      [{| schema_id := next_id (schema_id <$> avro_schemas st);
          schema_avro_schema_json := J; schema_topic_id := tid;
          schema_status := status; schema_base_schema_id := base |}] →
  get_latest_schema_by_topic_id tid st' =
    Some {| schema_id := next_id (schema_id <$> avro_schemas st);
            schema_avro_schema_json := J; schema_topic_id := tid;
            schema_status := status; schema_base_schema_id := base |}.
Proof.
  intros Hen Hs. unfold get_latest_schema_by_topic_id. rewrite Hs.
  rewrite filter_snoc_True by done.
  apply first_by_desc_snoc_max. intros y Hy. simpl.
  apply list_elem_of_filter in Hy as [_ Hy].
  by apply next_id_gt, list_elem_of_fmap_2.
Qed.

(** Inserting the candidate itself keeps the topic compatible with it. *)
Lemma compatible_after_insert (J : Json) (name : string) (t : Topic)
    (s : AvroSchema) (st st' : Session) :
  get_topic_by_name name st = Some t →
  topics st' = topics st →
  avro_schemas st' = avro_schemas st ++ [s] →
  schema_avro_schema_json s = J →
  is_full_compatible J J = true →
  (∀ e, e ∈ avro_schemas st → schema_topic_id e = topic_id t →
        schema_status e ≠ DISABLED →
        is_full_compatible (schema_avro_schema_json e) J = true) →
  is_schema_compatible_in_topic J name st' = (Ok true, st').
Proof.
  intros Ht Htopics Hs HJ Hrefl Hold.
  rewrite <- (get_topic_by_name_topics name st st' Htopics) in Ht.
  destruct (is_schema_compatible_in_topic_run J name t st' Ht)
    as (b & Hrun & Hiff).
  rewrite Hrun. f_equal. f_equal. apply Hiff.
  intros e He Htid Hen. rewrite Hs in He.
  apply elem_of_app in He as [He|He]; [by apply Hold|].
  apply list_elem_of_singleton in He as ->. by rewrite HJ.
Qed.

(** The deduplication rule: with the domain in place, its latest topic
    compatible with the candidate, and the latest enabled schema of that
    topic equal to the candidate in JSON and base, the call returns that
    schema and leaves the session as it is. *)
Lemma register_returns_latest (J : Json) (namespace source owner_email : string)
    (status : AvroSchemaStatus) (base : option Z) (uuid4_hex : string)
    (st : Session) (d : Domain) (t : Topic) (s : AvroSchema) :
  (verify_avro_schema J).1 = true →
  filter (λ d, domain_namespace d = namespace ∧ domain_source d = source)
         (domains st) = [d] →
  first_by_desc topic_id
    (filter (λ t, topic_domain_id t = domain_id d) (topics st)) = Some t →
  is_schema_compatible_in_topic J (topic_name t) st = (Ok true, st) →
  get_latest_schema_by_topic_id (topic_id t) st = Some s →
  schema_avro_schema_json s = J →
  schema_base_schema_id s = base →
  create_avro_schema_from_avro_json J namespace source owner_email status
    base uuid4_hex st = (Ok s, st).
Proof.
  intros Hvalid Hf Ht Hcompat Hlatest HJ Hbase.
  rewrite create_avro_schema_from_avro_json_body, Hvalid.
  change (negb true) with false. cbv iota.
  rewrite (bind_run _ _ st st (Some d))
    by (unfold _get_domain_or_create; by rewrite Hf).
  rewrite (bind_run (_lock_domain (Some d)) _ st st tt) by done.
  rewrite (bind_run _ _ _ _ _ (get_latest_topic_of_domain_run _ _ d st Hf)).
  rewrite Ht.
  rewrite (bind_run (_lock_topic_and_schemas _) _ st st tt) by done.
  rewrite (bind_run _ _ st st t)
    by (unfold target_topic; by rewrite (bind_run _ _ _ _ _ Hcompat)).
  unfold latest_or_new.
  rewrite (bind_run _ _ st st (Some s)) by (unfold query; by rewrite Hlatest).
  by rewrite !bool_decide_eq_true_2.
Qed.

(** What a successful registration leaves behind. *)
Lemma register_settles (J : Json) (namespace source owner_email : string)
    (status : AvroSchemaStatus) (base : option Z) (uuid4_hex : string)
    (st st1 : Session) (s1 : AvroSchema) :
  (∀ s, s ∈ avro_schemas st →
        ∃ t, t ∈ topics st ∧ topic_id t = schema_topic_id s) →
  status ≠ DISABLED →
  is_full_compatible J J = true →
  create_avro_schema_from_avro_json J namespace source owner_email status
    base uuid4_hex st = (Ok s1, st1) →
  (verify_avro_schema J).1 = true ∧
  ∃ d t,
    filter (λ d, domain_namespace d = namespace ∧ domain_source d = source)
           (domains st1) = [d] ∧
    first_by_desc topic_id
      (filter (λ t, topic_domain_id t = domain_id d) (topics st1)) = Some t ∧
    is_schema_compatible_in_topic J (topic_name t) st1 = (Ok true, st1) ∧
    get_latest_schema_by_topic_id (topic_id t) st1 = Some s1 ∧
    schema_avro_schema_json s1 = J ∧
    schema_base_schema_id s1 = base.
Proof.
  intros Hwf Hen Hrefl Hrun.
  rewrite create_avro_schema_from_avro_json_body in Hrun.
  destruct (verify_avro_schema J).1 eqn:Hvalid; [|discriminate].
  split; [done|]. change (negb true) with false in Hrun. cbv iota in Hrun.
  destruct (_get_domain_or_create namespace source owner_email st)
    as [r0 st0] eqn:H0.
  pose proof H0 as H0'. apply _get_domain_or_create_run in H0'
    as (Ht0 & Hs0 & _ & [(d & -> & Hf & _) | (-> & _ & _)]);
    [|by rewrite (bind_raise _ _ _ _ _ H0) in Hrun].
  rewrite (bind_run _ _ _ _ _ H0) in Hrun.
  rewrite (bind_run (_lock_domain (Some d)) _ st0 st0 tt) in Hrun by done.
  rewrite (bind_run _ _ _ _ _ (get_latest_topic_of_domain_run _ _ d st0 Hf))
    in Hrun.
  rewrite (bind_run (_lock_topic_and_schemas _) _ st0 st0 tt) in Hrun
    by (by destruct (first_by_desc _ _)).
  destruct (target_topic J namespace source uuid4_hex (Some d)
              (first_by_desc topic_id
                 (filter (λ t, topic_domain_id t = domain_id d) (topics st0)))
              st0) as [r2 st2] eqn:H2.
  pose proof H2 as H2'.
  apply target_topic_run in H2' as (Hd2 & Hs2 & _ & H2');
    [|by intros t Ht; apply latest_topic_known in Ht as [? ?]].
  exists d.
  destruct H2' as [(t & Ht & -> & -> & Hcompat) |
                   [(-> & Ht2 & Hfresh) | (-> & _ & _)]];
    [| |by rewrite (bind_raise _ _ _ _ _ H2) in Hrun].
  - (* the schema goes to the current topic *)
    rewrite (bind_run _ _ _ _ _ H2) in Hrun. exists t.
    apply latest_or_new_run in Hrun
      as (Hd3 & Ht3 & [(l & Hl & HlJ & Hlb & [= <-] & ->) |
                       [(_ & [=] & _) | (_ & [= ->] & Hs3)]]); [done|].
    rewrite Hd3, Ht3. repeat (split; [done|]).
    destruct (get_topic_by_name_known t st0) as (t' & Ht' & _ & _);
      [by apply latest_topic_known in Ht as [? ?]|].
    split; [|split; [by eapply inserted_is_latest|done]].
    eapply compatible_after_insert; [exact Ht'|done|exact Hs3|done|done|].
    destruct (is_schema_compatible_in_topic_run J (topic_name t) t' st0 Ht')
      as (b & Hb & Hiff).
    rewrite Hb in Hcompat. injection Hcompat as ->. by apply Hiff.
  - (* the schema goes to a new topic *)
    rewrite (bind_run _ _ _ _ _ H2) in Hrun. simpl in Hrun.
    set (T := {| topic_id := next_id (topic_id <$> topics st0);
                 topic_name := _construct_topic_name namespace source uuid4_hex;
                 topic_domain_id := domain_id d |}) in *.
    assert (∀ e, e ∈ avro_schemas st2 → schema_topic_id e ≠ topic_id T)
      as Hnone.
    { intros e He Htid. rewrite Hs2, Hs0 in He.
      destruct (Hwf e He) as (t0 & Ht0in & Ht0id).
      rewrite <- Ht0 in Ht0in.
      apply (list_elem_of_fmap_2 topic_id), next_id_gt in Ht0in.
      simpl in Htid. lia. }
    exists T.
    apply latest_or_new_run in Hrun
      as (Hd3 & Ht3 & [(l & Hl & _) |
                       [(_ & [=] & _) | (_ & [= ->] & Hs3)]]).
    { apply latest_schema_known in Hl as (Hl & Htid & _).
      by apply Hnone in Hl. }
    rewrite Hd3, Hd2, Ht3, Ht2. split; [done|]. split.
    { rewrite filter_snoc_True by done.
      apply first_by_desc_snoc_max. intros y Hy.
      apply list_elem_of_filter in Hy as [_ Hy].
      by apply next_id_gt, list_elem_of_fmap_2. }
    assert (get_topic_by_name (topic_name T) st2 = Some T) as HT.
    { unfold get_topic_by_name. rewrite Ht2.
      rewrite filter_snoc_True by done. rewrite filter_none; [done|].
      intros y Hy Hname. apply Hfresh, Exists_exists. by exists y. }
    split; [|split; [by eapply inserted_is_latest|done]].
    eapply compatible_after_insert; [exact HT|done|exact Hs3|done|done|].
    intros e He Htid _. by apply Hnone in He.
Qed.

(** C5.  Registering a self-compatible schema with an enabled status
    ([READ_AND_WRITE] or [READ_ONLY]) into a session whose schemas all
    belong to stored topics leaves that schema as the latest enabled schema of
    its topic, with the candidate's JSON and base; registering the same JSON
    again for the same namespace, source and base then returns this very
    schema and leaves the session untouched: no domain, topic, schema or
    element is inserted. *)
Theorem register_twice_same_schema (J : Json)
    (namespace source owner_email : string) (status : AvroSchemaStatus)
    (base : option Z) (uuid4_hex uuid4_hex' : string) (st st1 : Session)
    (s1 : AvroSchema) :
  (∀ s, s ∈ avro_schemas st →
        ∃ t, t ∈ topics st ∧ topic_id t = schema_topic_id s) →
  status ≠ DISABLED →
  is_full_compatible J J = true →
  create_avro_schema_from_avro_json J namespace source owner_email status
    base uuid4_hex st = (Ok s1, st1) →
  get_latest_schema_by_topic_id (schema_topic_id s1) st1 = Some s1 ∧
  schema_avro_schema_json s1 = J ∧
  schema_base_schema_id s1 = base ∧
  create_avro_schema_from_avro_json J namespace source owner_email status
    base uuid4_hex' st1 = (Ok s1, st1).
Proof.
  intros Hwf Hen Hrefl Hrun.
  destruct (register_settles _ _ _ _ _ _ _ _ _ _ Hwf Hen Hrefl Hrun)
    as (Hvalid & d & t & Hf & Ht & Hcompat & Hlatest & HJ & Hbase).
  pose proof (latest_schema_known _ _ _ Hlatest) as (_ & Htid & _).
  rewrite Htid. repeat (split; [done|]).
  by eapply register_returns_latest.
Qed.

End RegistrationFacts.

(** ** The properties at sample inputs *)

Section SampleRuns.
Import Repository RepositorySamples.

(** The first registration of an undocumented schema for a new pair fails
    with [MissingDocException], and by then a domain row and a topic row have
    been added to the session. *)
Lemma register_missing_doc_adds_rows :
  let run :=
    create_avro_schema_from_avro_json "?u" "n" "s" "owner@example.org"
      READ_AND_WRITE None "0a" empty_session in
  run.1 = Raise MissingDocException ∧
  domains empty_session = [] ∧ topics empty_session = [] ∧
  domains run.2 = [domain_n_s] ∧ topics run.2 = [topic_1] ∧
  avro_schemas run.2 = [] ∧ avro_schema_elements run.2 = [].
Proof. vm_compute. repeat split. Qed.

Lemma is_schema_compatible_no_topic_witness :
  is_schema_compatible "u" "n" "s" domain_only = (Ok true, domain_only).
Proof.
  apply (is_schema_compatible_no_topic "u" "n" "s" domain_n_s domain_only).
  - reflexivity.
  - simpl. intros t Ht. by apply elem_of_nil in Ht.
Defined.

Lemma is_schema_compatible_in_topic_spec_witness :
  ∃ b, is_schema_compatible_in_topic "u" "n.s.0a"
         (one_topic [schema 1 "u" READ_ONLY; schema 2 "v" DISABLED])
       = (Ok b, one_topic [schema 1 "u" READ_ONLY; schema 2 "v" DISABLED]) ∧
       (b = true ↔
          ∀ e, e ∈ [schema 1 "u" READ_ONLY; schema 2 "v" DISABLED] →
               schema_topic_id e = 1 → schema_status e ≠ DISABLED →
               is_full_compatible (schema_avro_schema_json e) "u" = true) ∧
       ((∀ e, e ∈ [schema 1 "u" READ_ONLY; schema 2 "v" DISABLED] →
              schema_topic_id e = 1 → schema_status e = DISABLED) → b = true).
Proof.
  apply (is_schema_compatible_in_topic_spec "u" "n.s.0a" topic_1
           (one_topic [schema 1 "u" READ_ONLY; schema 2 "v" DISABLED])).
  reflexivity.
Defined.

Lemma mark_unknown_schema_unchanged_witness :
  mark_schema_disabled 9 (one_topic [schema 1 "u" READ_AND_WRITE])
    = (Ok tt, one_topic [schema 1 "u" READ_AND_WRITE]) ∧
  mark_schema_readonly 9 (one_topic [schema 1 "u" READ_AND_WRITE])
    = (Ok tt, one_topic [schema 1 "u" READ_AND_WRITE]).
Proof.
  apply (mark_unknown_schema_unchanged 9
           (one_topic [schema 1 "u" READ_AND_WRITE])).
  simpl. intros s Hs. apply list_elem_of_singleton in Hs. subst s.
  simpl. lia.
Defined.

(** A disabled schema is enabled again by [mark_schema_readonly]. *)
Lemma disabled_schema_marked_readonly :
  let st := one_topic [schema 1 "u" DISABLED] in
  schema_status <$> avro_schemas st = [DISABLED] ∧
  (mark_schema_readonly 1 st).1 = Ok tt ∧
  schema_status <$> avro_schemas (mark_schema_readonly 1 st).2 = [READ_ONLY].
Proof. repeat split. Qed.

(** Registered with status [DISABLED], the same JSON gets a second row and a
    second id on the second call. *)
Lemma register_twice_disabled_new_id :
  ∃ s1 st1 s2 st2,
    create_avro_schema_from_avro_json "u" "n" "s" "owner@example.org"
      DISABLED None "0a" empty_session = (Ok s1, st1) ∧
    create_avro_schema_from_avro_json "u" "n" "s" "owner@example.org"
      DISABLED None "0b" st1 = (Ok s2, st2) ∧
    schema_id s1 = 1 ∧ schema_id s2 = 2 ∧
    schema_id <$> avro_schemas st2 = [1; 2].
Proof.
  eexists _, _, _, _. split; [vm_compute; reflexivity|].
  split; [vm_compute; reflexivity|]. repeat split.
Qed.

Lemma register_twice_same_schema_witness :
  ∃ s1 st1,
    create_avro_schema_from_avro_json "u" "n" "s" "owner@example.org"
      READ_AND_WRITE None "0a" empty_session = (Ok s1, st1) ∧
    schema_id s1 = 1 ∧
    get_latest_schema_by_topic_id (schema_topic_id s1) st1 = Some s1 ∧
    create_avro_schema_from_avro_json "u" "n" "s" "owner@example.org"
      READ_AND_WRITE None "0b" st1 = (Ok s1, st1).
Proof.
  eexists _, _. split; [vm_compute; reflexivity|]. split; [reflexivity|].
  edestruct (register_twice_same_schema "u" "n" "s" "owner@example.org"
               READ_AND_WRITE None "0a" "0b" empty_session)
    as (Hlatest & _ & _ & Hagain).
  - simpl. intros s Hs. by apply elem_of_nil in Hs.
  - discriminate.
  - reflexivity.
  - vm_compute. reflexivity.
  - split; [exact Hlatest|exact Hagain].
Defined.

End SampleRuns.

(** ** More on the converter: what a converted record carries *)

Section ConverterRecords.
Import Converter.

Lemma _create_avro_field_emits c r b' :
  _create_avro_field c (Some r) = (Ok tt, b') →
  ∃ conv, _type_converters (column_type c) = Some conv ∧
          b' = Some (with_fields r (record_fields r ++ [emitted_field c conv])).
Proof.
  unfold _create_avro_field, bind, _create_avro_field_type.
  destruct (_type_converters (column_type c)) as [conv|]; [|discriminate].
  simpl. intros [= <-]. by exists conv.
Qed.

Lemma for_each_create_avro_field_emits cols : ∀ r b',
  for_each cols _create_avro_field (Some r) = (Ok tt, b') →
  ∃ fs, b' = Some (with_fields r (record_fields r ++ fs)) ∧
        Forall2 (λ c f, ∃ conv, _type_converters (column_type c) = Some conv ∧
                                f = emitted_field c conv) cols fs.
Proof.
  induction cols as [|c cols IH]; intros r b'; simpl.
  - intros [= <-]. exists []. rewrite app_nil_r. by destruct r.
  - unfold bind at 1.
    destruct (_create_avro_field c (Some r)) as [[[]|e] b1] eqn:Hc;
      [|discriminate].
    apply _create_avro_field_emits in Hc as (conv & Hconv & ->).
    intros Hrest. apply IH in Hrest as (fs & -> & Hfs).
    exists (emitted_field c conv :: fs). split.
    + by rewrite with_fields_twice, with_fields_fields, <- app_assoc.
    + constructor; [by exists conv|done].
Qed.

(** A successful conversion starts from a closed builder, leaves it closed,
    and returns the opened record with one emitted field per column. *)
Lemma convert_emits (t : SQLTable) (b b' : AvroSchemaBuilder) (r : AvroRecord) :
  convert (PyTable t) b = (Ok (Some r), b') →
  b = None ∧ b' = None ∧
  ∃ fs, r = with_fields (opened_record t) fs ∧
        Forall2 (λ c f, ∃ conv, _type_converters (column_type c) = Some conv ∧
                                f = emitted_field c conv) (table_columns t) fs.
Proof.
  unfold convert; simpl. unfold bind at 1.
  destruct (_create_avro_record_json t b) as [[r0|e] b0] eqn:Hrec;
    [|discriminate].
  intros [= -> ->]. revert Hrec.
  unfold _create_avro_record_json, bind at 1.
  unfold begin_record. destruct b as [open|]; [discriminate|].
  fold (opened_record t). unfold bind at 1.
  destruct (for_each (table_columns t) _create_avro_field
              (Some (opened_record t))) as [[[]|e] b1] eqn:Hloop;
    [|discriminate].
  apply for_each_create_avro_field_emits in Hloop as (fs & -> & Hfs).
  unfold bind, builder_end, ret. intros [= <- <-].
  repeat (split; [done|]). by exists fs.
Qed.

Lemma Forall2_emitted (P : SQLColumn → AvroField → Prop)
    (cols : list SQLColumn) (fs : list AvroField) :
  (∀ c conv, _type_converters (column_type c) = Some conv →
             P c (emitted_field c conv)) →
  Forall2 (λ c f, ∃ conv, _type_converters (column_type c) = Some conv ∧
                          f = emitted_field c conv) cols fs →
  Forall2 P cols fs.
Proof.
  intros HP Hfs. eapply Forall2_impl; [exact Hfs|].
  intros c f (conv & Hconv & ->). by apply HP.
Qed.

(** Case analysis on the dispatch table, down to closed dictionary lookups. *)
Ltac by_dispatch c conv Hconv :=
  let Hty := fresh "Hty" in
  destruct (column_type c) eqn:Hty; simpl in Hconv;
  try discriminate Hconv; injection Hconv as <-;
  unfold emitted_field, _convert_float_type, _convert_double_type,
    _convert_small_integer_type, _convert_bigint_type, _convert_decimal_type,
    _convert_boolean_type, _convert_char_type, _convert_varchar_type,
    _convert_date_type, _convert_timestamp_type, _get_precision_metadata,
    _get_primary_key_metadata, dict_update;
  cbn [field_extras snd fst]; rewrite ?Hty;
  cbn [type_length type_precision type_scale];
  (destruct (column_primary_key_order c) as [?z|];
   [destruct (Z.eqb _ 0)|]); vm_compute; try done.

(** X1.  Every field emitted by [convert] carries the column's name, doc, aliases
    and default value, one field per column and in column order. *)
Theorem convert_passes_columns_through (t : SQLTable)
    (b b' : AvroSchemaBuilder) (r : AvroRecord) :
  convert (PyTable t) b = (Ok (Some r), b') →
  Forall2 (λ c f, field_name f = column_name c ∧
                  field_doc f = column_doc c ∧
                  field_aliases f = column_metadata c !! MetaDataKey.ALIASES ∧
                  field_default_value f = column_default_value c)
          (table_columns t) (record_fields r).
Proof.
  intros Hrun. apply convert_emits in Hrun as (_ & _ & fs & -> & Hfs).
  rewrite with_fields_fields. eapply Forall2_emitted; [|exact Hfs]. done.
Qed.

Lemma convert_passes_columns_through_witness :
  ∃ r, convert (PyTable Samples.orders) new_builder = (Ok (Some r), None) ∧
       field_name <$> record_fields r
         = ["id"; "name"; "code"; "price"; "day"; "created_at"] ∧
       Forall2 (λ c f, field_name f = column_name c ∧
                       field_doc f = column_doc c ∧
                       field_aliases f
                         = column_metadata c !! MetaDataKey.ALIASES ∧
                       field_default_value f = column_default_value c)
               (table_columns Samples.orders) (record_fields r).
Proof.
  eexists. split; [reflexivity|]. split; [reflexivity|].
  apply (convert_passes_columns_through Samples.orders new_builder None).
  reflexivity.
Defined.

(** X2.  The field of a column carries [primary_key] exactly when the column's
    [primary_key_order] is a non-zero number, and then with that number,
    whatever the column's type. *)
Theorem convert_keeps_primary_key_order (t : SQLTable)
    (b b' : AvroSchemaBuilder) (r : AvroRecord) :
  convert (PyTable t) b = (Ok (Some r), b') →
  Forall2 (λ c f, field_extras f !! AvroMetaDataKeys.PRIMARY_KEY =
                    match column_primary_key_order c with
                    | Some z => if Z.eqb z 0 then None else Some (MInt z)
                    | None => None
                    end)
          (table_columns t) (record_fields r).
Proof.
  intros Hrun. apply convert_emits in Hrun as (_ & _ & fs & -> & Hfs).
  rewrite with_fields_fields. eapply Forall2_emitted; [|exact Hfs].
  intros c conv Hconv. by_dispatch c conv Hconv.
Qed.

Lemma convert_keeps_primary_key_order_witness :
  ∃ r, convert (PyTable Samples.orders) new_builder = (Ok (Some r), None) ∧
       Forall2 (λ c f, field_extras f !! AvroMetaDataKeys.PRIMARY_KEY =
                         match column_primary_key_order c with
                         | Some z => if Z.eqb z 0 then None else Some (MInt z)
                         | None => None
                         end)
               (table_columns Samples.orders) (record_fields r).
Proof.
  eexists. split; [reflexivity|].
  apply (convert_keeps_primary_key_order Samples.orders new_builder None).
  reflexivity.
Defined.

(** X3.  The field of a [NUMERIC] or [DECIMAL] column carries [fixed_pt=true] and
    the type's precision and scale, also when the column is a key column; no
    other field carries any of the three keys. *)
Theorem convert_keeps_precision_and_scale (t : SQLTable)
    (b b' : AvroSchemaBuilder) (r : AvroRecord) :
  convert (PyTable t) b = (Ok (Some r), b') →
  Forall2 (λ c f,
             match column_type c with
             | RedshiftNumeric p s | RedshiftDecimal p s =>
                 field_extras f !! AvroMetaDataKeys.FIXED_POINT
                   = Some (MBool true) ∧
                 field_extras f !! AvroMetaDataKeys.PRECISION
                   = Some (MInt p) ∧
                 field_extras f !! AvroMetaDataKeys.SCALE = Some (MInt s)
             | _ =>
                 field_extras f !! AvroMetaDataKeys.FIXED_POINT = None ∧
                 field_extras f !! AvroMetaDataKeys.PRECISION = None ∧
                 field_extras f !! AvroMetaDataKeys.SCALE = None
             end)
          (table_columns t) (record_fields r).
Proof.
  intros Hrun. apply convert_emits in Hrun as (_ & _ & fs & -> & Hfs).
  rewrite with_fields_fields. eapply Forall2_emitted; [|exact Hfs].
  intros c conv Hconv. by_dispatch c conv Hconv.
Qed.

Lemma convert_keeps_precision_and_scale_witness :
  ∃ r, convert (PyTable Samples.orders) new_builder = (Ok (Some r), None) ∧
       Forall2 (λ c f,
                  match column_type c with
                  | RedshiftNumeric p s | RedshiftDecimal p s =>
                      field_extras f !! AvroMetaDataKeys.FIXED_POINT
                        = Some (MBool true) ∧
                      field_extras f !! AvroMetaDataKeys.PRECISION
                        = Some (MInt p) ∧
                      field_extras f !! AvroMetaDataKeys.SCALE = Some (MInt s)
                  | _ =>
                      field_extras f !! AvroMetaDataKeys.FIXED_POINT = None ∧
                      field_extras f !! AvroMetaDataKeys.PRECISION = None ∧
                      field_extras f !! AvroMetaDataKeys.SCALE = None
                  end)
               (table_columns Samples.orders) (record_fields r).
Proof.
  eexists. split; [reflexivity|].
  apply (convert_keeps_precision_and_scale Samples.orders new_builder None).
  reflexivity.
Defined.

(** X4.  The field of a fixed-length character column carries [fix_len] with the
    type's length and no [max_len]; the field of a varying-length character
    column carries [max_len] with the length and no [fix_len]; the fields of
    the other columns carry neither. *)
Theorem convert_keeps_length (t : SQLTable)
    (b b' : AvroSchemaBuilder) (r : AvroRecord) :
  convert (PyTable t) b = (Ok (Some r), b') →
  Forall2 (λ c f,
             match column_type c with
             | RedshiftNChar n | RedshiftBPChar n | RedshiftChar n
             | RedshiftCharacter n =>
                 field_extras f !! AvroMetaDataKeys.FIX_LEN = Some (MInt n) ∧
                 field_extras f !! AvroMetaDataKeys.MAX_LEN = None
             | RedshiftNVarChar n | RedshiftCharacterVarying n
             | RedshiftVarChar n | RedshiftText n =>
                 field_extras f !! AvroMetaDataKeys.MAX_LEN = Some (MInt n) ∧
                 field_extras f !! AvroMetaDataKeys.FIX_LEN = None
             | _ =>
                 field_extras f !! AvroMetaDataKeys.FIX_LEN = None ∧
                 field_extras f !! AvroMetaDataKeys.MAX_LEN = None
             end)
          (table_columns t) (record_fields r).
Proof.
  intros Hrun. apply convert_emits in Hrun as (_ & _ & fs & -> & Hfs).
  rewrite with_fields_fields. eapply Forall2_emitted; [|exact Hfs].
  intros c conv Hconv. by_dispatch c conv Hconv.
Qed.

Lemma convert_keeps_length_witness :
  ∃ r, convert (PyTable Samples.orders) new_builder = (Ok (Some r), None) ∧
       Forall2 (λ c f,
                  match column_type c with
                  | RedshiftNChar n | RedshiftBPChar n | RedshiftChar n
                  | RedshiftCharacter n =>
                      field_extras f !! AvroMetaDataKeys.FIX_LEN
                        = Some (MInt n) ∧
                      field_extras f !! AvroMetaDataKeys.MAX_LEN = None
                  | RedshiftNVarChar n | RedshiftCharacterVarying n
                  | RedshiftVarChar n | RedshiftText n =>
                      field_extras f !! AvroMetaDataKeys.MAX_LEN
                        = Some (MInt n) ∧
                      field_extras f !! AvroMetaDataKeys.FIX_LEN = None
                  | _ =>
                      field_extras f !! AvroMetaDataKeys.FIX_LEN = None ∧
                      field_extras f !! AvroMetaDataKeys.MAX_LEN = None
                  end)
               (table_columns Samples.orders) (record_fields r).
Proof.
  eexists. split; [reflexivity|].
  apply (convert_keeps_length Samples.orders new_builder None).
  reflexivity.
Defined.

(** X5.  No field that [convert] emits carries the [time] key; [date] is carried
    by the fields of [DATE] columns only and [timestamp] by those of
    [TIMESTAMP] columns only. *)
Theorem convert_date_and_time_flags (t : SQLTable)
    (b b' : AvroSchemaBuilder) (r : AvroRecord) :
  convert (PyTable t) b = (Ok (Some r), b') →
  Forall2 (λ c f,
             field_extras f !! AvroMetaDataKeys.TIME = None ∧
             field_extras f !! AvroMetaDataKeys.DATE =
               (if decide (column_type c = RedshiftDate)
                then Some (MBool true) else None) ∧
             field_extras f !! AvroMetaDataKeys.TIMESTAMP =
               (if decide (column_type c = RedshiftTimestamp)
                then Some (MBool true) else None))
          (table_columns t) (record_fields r).
Proof.
  intros Hrun. apply convert_emits in Hrun as (_ & _ & fs & -> & Hfs).
  rewrite with_fields_fields. eapply Forall2_emitted; [|exact Hfs].
  intros c conv Hconv. by_dispatch c conv Hconv.
Qed.

Lemma convert_date_and_time_flags_witness :
  ∃ r, convert (PyTable Samples.orders) new_builder = (Ok (Some r), None) ∧
       Forall2 (λ c f,
                  field_extras f !! AvroMetaDataKeys.TIME = None ∧
                  field_extras f !! AvroMetaDataKeys.DATE =
                    (if decide (column_type c = RedshiftDate)
                     then Some (MBool true) else None) ∧
                  field_extras f !! AvroMetaDataKeys.TIMESTAMP =
                    (if decide (column_type c = RedshiftTimestamp)
                     then Some (MBool true) else None))
               (table_columns Samples.orders) (record_fields r).
Proof.
  eexists. split; [reflexivity|].
  apply (convert_date_and_time_flags Samples.orders new_builder None).
  reflexivity.
Defined.

(** X6.  The record that [convert] returns has the table's name, doc and aliases,
    the namespace of the table's metadata or the empty string when there is
    none, the names of the table's key columns under [primary_key] when there
    are any and no extra property otherwise, and as many fields as the table
    has columns. *)
Theorem convert_record_header (t : SQLTable)
    (b b' : AvroSchemaBuilder) (r : AvroRecord) :
  convert (PyTable t) b = (Ok (Some r), b') →
  record_name r = table_name t ∧
  record_doc r = table_doc t ∧
  record_aliases r = table_metadata t !! MetaDataKey.ALIASES ∧
  record_namespace r =
    match table_metadata t !! MetaDataKey.NAMESPACE with
    | Some namespace => namespace
    | None => MStr ""
    end ∧
  record_extras r =
    match table_primary_keys t with
    | [] => ∅
    | keys => {[AvroMetaDataKeys.PRIMARY_KEY := MStrs (column_name <$> keys)]}
    end ∧
  length (record_fields r) = length (table_columns t).
Proof.
  intros Hrun. apply convert_emits in Hrun as (_ & _ & fs & -> & Hfs).
  repeat (split; [done|]). split.
  - simpl. unfold _get_table_metadata. by destruct (table_primary_keys t).
  - simpl. symmetry. by eapply Forall2_length.
Qed.

Lemma convert_record_header_witness :
  ∃ r, convert (PyTable Samples.orders) new_builder = (Ok (Some r), None) ∧
       record_name r = "orders" ∧
       record_doc r = Some "orders" ∧
       record_aliases r = None ∧
       record_namespace r = MStr "shop" ∧
       record_extras r = {[AvroMetaDataKeys.PRIMARY_KEY := MStrs ["id"]]} ∧
       length (record_fields r) = 6%nat.
Proof.
  eexists. split; [reflexivity|].
  apply (convert_record_header Samples.orders new_builder None).
  reflexivity.
Defined.

Lemma convert_time_column_raises_witness :
  (convert (PyTable Samples.shifts) new_builder).1
    = Raise UnsupportedTypeException.
Proof.
  apply (convert_time_column_raises Samples.shifts).
  simpl. right. left. reflexivity.
Defined.

End ConverterRecords.

(** ** More on the repository: the read side *)

Section RepositoryQueries.
Import Repository.
Context {Json : Type} `{Models Json}.

Local Abbreviation Session := (Session Json).
Local Abbreviation AvroSchema := (AvroSchema Json).

Lemma first_by_desc_max {A} (key : A → Z) (l : list A) (x : A) :
  first_by_desc key l = Some x → ∀ y, y ∈ l → key y ≤ key x.
Proof.
  revert x. induction l as [|z l IH] using rev_ind; intros x; [done|].
  rewrite first_by_desc_snoc.
  destruct (first_by_desc key l) as [b|] eqn:Hb.
  - specialize (IH b eq_refl).
    case_decide as Hlt; intros [= <-]; intros y Hy;
      apply elem_of_app in Hy as [Hy|Hy%list_elem_of_singleton];
      subst; try lia; specialize (IH y Hy); lia.
  - intros [= <-] y Hy.
    apply elem_of_app in Hy as [Hy|Hy%list_elem_of_singleton]; subst; [|lia].
    destruct l as [|a l] using rev_ind; [by apply elem_of_nil in Hy|].
    rewrite first_by_desc_snoc in Hb.
    destruct (first_by_desc key l); [case_decide|]; discriminate.
Qed.

Lemma first_by_desc_None {A} (key : A → Z) (l : list A) :
  first_by_desc key l = None ↔ l = [].
Proof.
  split; [|by intros ->].
  destruct l as [|a l] using rev_ind; [done|].
  rewrite first_by_desc_snoc.
  destruct (first_by_desc key l); [case_decide|]; discriminate.
Qed.

Lemma order_by_Permutation {A} (key : A → Z) (rows : list A) :
  order_by key rows ≡ₚ rows.
Proof. unfold order_by. apply merge_sort_Permutation. Qed.

Lemma order_by_StronglySorted {A} (key : A → Z) (rows : list A) :
  StronglySorted (λ a b, key a ≤ key b) (order_by key rows).
Proof.
  unfold order_by. apply StronglySorted_merge_sort.
  - intros a b c ? ?. lia.
  - intros a b. lia.
Qed.

Lemma latest_schema_max (tid : Z) (st : Session) :
  match get_latest_schema_by_topic_id tid st with
  | Some s =>
      s ∈ avro_schemas st ∧ schema_topic_id s = tid ∧
      schema_status s ≠ DISABLED ∧
      ∀ e, e ∈ avro_schemas st → schema_topic_id e = tid →
           schema_status e ≠ DISABLED → schema_id e ≤ schema_id s
  | None =>
      ∀ e, e ∈ avro_schemas st → schema_topic_id e = tid →
           schema_status e = DISABLED
  end.
Proof.
  destruct (get_latest_schema_by_topic_id tid st) as [s|] eqn:Hs.
  - pose proof (latest_schema_known _ _ _ Hs) as (? & ? & ?).
    repeat (split; [done|]). intros e He Htid Hen.
    apply (first_by_desc_max _ _ _ Hs). by apply list_elem_of_filter.
  - intros e He Htid. apply first_by_desc_None in Hs.
    destruct (decide (schema_status e = DISABLED)) as [|Hen]; [done|].
    assert (e ∈ filter (λ s, schema_topic_id s = tid ∧
                             schema_status s ≠ DISABLED) (avro_schemas st))
      as Hin by (by apply list_elem_of_filter).
    rewrite Hs in Hin. by apply elem_of_nil in Hin.
Qed.

(** X8.  The latest schema of a topic is an enabled schema of the topic whose id
    no enabled schema of the topic exceeds; there is none exactly when every
    schema of the topic is disabled. *)
Theorem latest_schema_has_greatest_id (tid : Z) (st : Session) :
  match get_latest_schema_by_topic_id tid st with
  | Some s =>
      s ∈ avro_schemas st ∧ schema_topic_id s = tid ∧
      schema_status s ≠ DISABLED ∧
      ∀ e, e ∈ avro_schemas st → schema_topic_id e = tid →
           schema_status e ≠ DISABLED → schema_id e ≤ schema_id s
  | None =>
      ∀ e, e ∈ avro_schemas st → schema_topic_id e = tid →
           schema_status e = DISABLED
  end.
Proof. apply latest_schema_max. Qed.

Lemma schemas_by_topic_id_listing (tid : Z) (include_disabled : bool)
    (st : Session) :
  StronglySorted (λ a b, schema_id a ≤ schema_id b)
    (get_schemas_by_topic_id tid include_disabled st) ∧
  get_schemas_by_topic_id tid include_disabled st ≡ₚ
    filter (λ s, schema_topic_id s = tid ∧
                 (include_disabled = false → schema_status s ≠ DISABLED))
           (avro_schemas st).
Proof.
  split; [apply order_by_StronglySorted|].
  unfold get_schemas_by_topic_id. rewrite order_by_Permutation.
  destruct include_disabled; simpl.
  - apply reflexive_eq, list_filter_iff. intros s. split; [by intros ?|tauto].
  - rewrite list_filter_filter.
    apply reflexive_eq, list_filter_iff. intros s. split; [tauto|].
    intros [? Hen]. split; [by apply Hen|done].
Qed.

(** X9.  [get_schemas_by_topic_id] lists exactly the schemas of the topic, each
    as often as it is stored, without the disabled ones unless they are asked
    for, in ascending order of id. *)
Theorem get_schemas_by_topic_id_sorted (tid : Z) (include_disabled : bool)
    (st : Session) :
  StronglySorted (λ a b, schema_id a ≤ schema_id b)
    (get_schemas_by_topic_id tid include_disabled st) ∧
  get_schemas_by_topic_id tid include_disabled st ≡ₚ
    filter (λ s, schema_topic_id s = tid ∧
                 (include_disabled = false → schema_status s ≠ DISABLED))
           (avro_schemas st).
Proof. apply schemas_by_topic_id_listing. Qed.

(** X10.  With unique schema ids, the last row of the ascending list of a topic's
    enabled schemas is the topic's latest schema. *)
Theorem last_enabled_schema_is_latest (tid : Z) (st : Session) :
  NoDup (schema_id <$> avro_schemas st) →
  last (get_schemas_by_topic_id tid false st)
    = get_latest_schema_by_topic_id tid st.
Proof.
  intros Hnodup.
  pose proof (schemas_by_topic_id_listing tid false st) as [Hsorted Hperm].
  pose proof (latest_schema_max tid st) as Hlatest.
  destruct (last (get_schemas_by_topic_id tid false st)) as [x|] eqn:Hlast.
  - pose proof Hlast as Hx. apply last_Some in Hx as [l' Hl'].
    assert (x ∈ avro_schemas st ∧ schema_topic_id x = tid ∧
            schema_status x ≠ DISABLED) as (Hxin & Hxtid & Hxen).
    { apply last_Some_elem_of in Hlast. rewrite Hperm in Hlast.
      apply list_elem_of_filter in Hlast as [[? Hen] ?].
      split; [done|]. split; [done|by apply Hen]. }
    destruct (get_latest_schema_by_topic_id tid st) as [s|].
    + destruct Hlatest as (Hsin & Hstid & Hsen & Hmax).
      assert (schema_id s ≤ schema_id x) as Hle.
      { assert (s ∈ get_schemas_by_topic_id tid false st) as Hs.
        { rewrite Hperm. apply list_elem_of_filter. by repeat split. }
        rewrite Hl' in Hs, Hsorted.
        apply elem_of_app in Hs as [Hs|Hs%list_elem_of_singleton];
          [|subst; lia].
        refine (StronglySorted_app_1_elem_of
                  (λ a b : AvroSchema, schema_id a ≤ schema_id b)
                  l' [x] s x Hsorted Hs _). left. }
      specialize (Hmax x Hxin Hxtid Hxen).
      f_equal. assert (schema_id x = schema_id s) as Hid by lia.
      clear -Hnodup Hxin Hsin Hid.
      induction (avro_schemas st) as [|a l IH]; [by apply elem_of_nil in Hxin|].
      rewrite fmap_cons in Hnodup. apply NoDup_cons in Hnodup as [Hnotin Hnd].
      apply elem_of_cons in Hxin as [->|Hxin];
        apply elem_of_cons in Hsin as [->|Hsin]; try done.
      * destruct Hnotin. rewrite Hid. by apply list_elem_of_fmap_2.
      * destruct Hnotin. rewrite <- Hid. by apply list_elem_of_fmap_2.
      * by apply IH.
    + by specialize (Hlatest x Hxin Hxtid).
  - apply last_None in Hlast.
    destruct (get_latest_schema_by_topic_id tid st) as [s|]; [|done].
    destruct Hlatest as (Hsin & Hstid & Hsen & _).
    assert (s ∈ get_schemas_by_topic_id tid false st) as Hs.
    { rewrite Hperm. apply list_elem_of_filter. by repeat split. }
    rewrite Hlast in Hs. by apply elem_of_nil in Hs.
Qed.

Lemma NoDup_fmap_eq {A B} (f : A → B) (l : list A) (x y : A) :
  NoDup (f <$> l) → x ∈ l → y ∈ l → f x = f y → x = y.
Proof.
  induction l as [|a l IH]; intros Hnd Hx Hy Hf; [by apply elem_of_nil in Hx|].
  rewrite fmap_cons in Hnd. apply NoDup_cons in Hnd as [Hnotin Hnd].
  apply elem_of_cons in Hx as [->|Hx]; apply elem_of_cons in Hy as [->|Hy];
    try done.
  - destruct Hnotin. rewrite Hf. by apply list_elem_of_fmap_2.
  - destruct Hnotin. rewrite <- Hf. by apply list_elem_of_fmap_2.
  - by apply IH.
Qed.

Lemma get_topic_by_name_unique (t : Topic) (st : Session) :
  NoDup (topic_name <$> topics st) → t ∈ topics st →
  get_topic_by_name (topic_name t) st = Some t.
Proof.
  intros Hnd Ht.
  destruct (get_topic_by_name_known t st Ht) as (t' & Hget & Ht' & Hname).
  rewrite Hget. f_equal. by eapply NoDup_fmap_eq.
Qed.

Lemma get_topic_by_name_unknown (name : string) (st : Session) :
  (∀ t, t ∈ topics st → topic_name t ≠ name) →
  get_topic_by_name name st = None.
Proof. intros Hnone. unfold get_topic_by_name. by rewrite filter_none. Qed.

(** X11.  For a name that no stored topic has, the three lookups by topic name
    raise [EntityNotFoundException] and leave the session alone. *)
Theorem unknown_topic_name_raises (name : string) (st : Session) :
  (∀ t, t ∈ topics st → topic_name t ≠ name) →
  get_latest_schema_by_topic_name name st
    = (Raise EntityNotFoundException, st) ∧
  (∀ include_disabled,
     get_schemas_by_topic_name name include_disabled st
       = (Raise EntityNotFoundException, st)) ∧
  (∀ target,
     is_schema_compatible_in_topic target name st
       = (Raise EntityNotFoundException, st)).
Proof.
  intros Hnone. apply get_topic_by_name_unknown in Hnone.
  unfold get_latest_schema_by_topic_name, is_schema_compatible_in_topic, bind,
    get_schemas_by_topic_name.
  rewrite Hnone. done.
Qed.

(** X12.  With unique topic names, looking a stored topic's schemas up by the
    topic's name gives what looking them up by its id gives. *)
Theorem by_topic_name_as_by_topic_id (t : Topic) (st : Session) :
  NoDup (topic_name <$> topics st) → t ∈ topics st →
  get_latest_schema_by_topic_name (topic_name t) st
    = (Ok (get_latest_schema_by_topic_id (topic_id t) st), st) ∧
  ∀ include_disabled,
    get_schemas_by_topic_name (topic_name t) include_disabled st
      = (Ok (get_schemas_by_topic_id (topic_id t) include_disabled st), st).
Proof.
  intros Hnd Ht. pose proof (get_topic_by_name_unique t st Hnd Ht) as Hget.
  unfold get_latest_schema_by_topic_name, get_schemas_by_topic_name.
  rewrite Hget. done.
Qed.

(** *** Status updates seen through the queries *)

Lemma get_schema_by_id_update (id j : Z) (status : AvroSchemaStatus)
    (st : Session) :
  get_schema_by_id j (_update_schema_status id status st).2 =
    (λ s, if decide (schema_id s = id) then with_status status s else s)
      <$> get_schema_by_id j st.
Proof.
  unfold get_schema_by_id, _update_schema_status, first. simpl.
  induction (avro_schemas st) as [|s l IH]; [done|].
  rewrite fmap_cons, !filter_cons.
  destruct (decide (schema_id s = j)) as [Hj|Hj].
  - rewrite decide_True; [done|]. by case_decide.
  - rewrite decide_False; [done|]. by case_decide.
Qed.

(** X13.  Looking a schema up by id after a status change gives the row it gave
    before with the new status when it is the id that was marked, and what it
    gave before for any other id. *)
Theorem get_schema_by_id_after_mark (id j : Z) (st : Session) :
  get_schema_by_id j (mark_schema_disabled id st).2
    = (if decide (j = id) then with_status DISABLED <$> get_schema_by_id j st
       else get_schema_by_id j st) ∧
  get_schema_by_id j (mark_schema_readonly id st).2
    = (if decide (j = id) then with_status READ_ONLY <$> get_schema_by_id j st
       else get_schema_by_id j st).
Proof.
  assert (∀ status,
    get_schema_by_id j (_update_schema_status id status st).2 =
      (if decide (j = id) then with_status status <$> get_schema_by_id j st
       else get_schema_by_id j st)) as Hupd.
  { intros status. rewrite get_schema_by_id_update.
    destruct (get_schema_by_id j st) as [s|] eqn:Hs; [|by case_decide].
    assert (schema_id s = j) as Hj.
    { unfold get_schema_by_id, first in Hs.
      apply head_Some_elem_of, list_elem_of_filter in Hs. tauto. }
    simpl. rewrite Hj. by case_decide. }
  unfold mark_schema_disabled, mark_schema_readonly. by rewrite !Hupd.
Qed.

Lemma _update_schema_status_twice (id : Z) (status1 status2 : AvroSchemaStatus)
    (st : Session) :
  _update_schema_status id status2 (_update_schema_status id status1 st).2
    = _update_schema_status id status2 st.
Proof.
  unfold _update_schema_status. simpl. do 2 f_equal.
  rewrite <- list_fmap_compose. apply list_fmap_ext. intros i s _. simpl.
  destruct (decide (schema_id s = id)) as [Hid|Hid]; simpl.
  - by rewrite decide_True.
  - by rewrite decide_False.
Qed.

(** X14.  Of two status changes of the same schema the later one decides: marking
    twice is marking once, and disabling after marking read-only (or the
    other way round) leaves the session as the second call alone would. *)
Theorem later_mark_wins (id : Z) (st : Session) :
  mark_schema_disabled id (mark_schema_readonly id st).2
    = mark_schema_disabled id st ∧
  mark_schema_readonly id (mark_schema_disabled id st).2
    = mark_schema_readonly id st ∧
  mark_schema_disabled id (mark_schema_disabled id st).2
    = mark_schema_disabled id st ∧
  mark_schema_readonly id (mark_schema_readonly id st).2
    = mark_schema_readonly id st.
Proof.
  unfold mark_schema_disabled, mark_schema_readonly.
  repeat split; apply _update_schema_status_twice.
Qed.

(** X15.  Status changes of two different schemas can be made in either order. *)
Theorem marks_of_different_schemas_commute (i j : Z)
    (status_i status_j : AvroSchemaStatus) (st : Session) :
  i ≠ j →
  _update_schema_status j status_j (_update_schema_status i status_i st).2
    = _update_schema_status i status_i (_update_schema_status j status_j st).2.
Proof.
  intros Hij. unfold _update_schema_status. simpl. do 2 f_equal.
  rewrite <- !list_fmap_compose. apply list_fmap_ext. intros k s _. simpl.
  destruct (decide (schema_id s = i)) as [Hi|Hi];
    destruct (decide (schema_id s = j)) as [Hj|Hj]; simpl;
    repeat case_decide; first [done|congruence].
Qed.

Lemma disabled_after_mark (id : Z) (st : Session) (e : AvroSchema) :
  e ∈ avro_schemas (mark_schema_disabled id st).2 →
  schema_id e = id → schema_status e = DISABLED.
Proof.
  simpl. intros He Hid. apply list_elem_of_fmap in He as (s & -> & _).
  destruct (decide (schema_id s = id)); [done|]. done.
Qed.

(** X16.  A schema that was marked disabled is not among the enabled schemas of
    any topic and is not the latest schema of any topic. *)
Theorem disabled_schema_not_served (id tid : Z) (st : Session) :
  Forall (λ e, schema_id e ≠ id)
    (get_schemas_by_topic_id tid false (mark_schema_disabled id st).2) ∧
  schema_id <$> get_latest_schema_by_topic_id tid (mark_schema_disabled id st).2
    ≠ Some id.
Proof.
  split.
  - apply Forall_forall. intros e He Hid.
    pose proof (schemas_by_topic_id_listing tid false
                  (mark_schema_disabled id st).2) as [_ Hperm].
    rewrite Hperm in He. apply list_elem_of_filter in He as [[_ Hen] He].
    by apply Hen, (disabled_after_mark id st).
  - destruct (get_latest_schema_by_topic_id tid _) as [s|] eqn:Hs; [|done].
    simpl. intros [= Hid].
    apply latest_schema_known in Hs as (Hin & _ & Hen).
    by apply Hen, (disabled_after_mark id st).
Qed.

(** *** Listings *)

(** X17.  The listings of domains and topics are in ascending order of id and
    contain exactly the stored rows that were asked for. *)
Theorem listings_sorted (namespace : string) (did : Z) (st : Session) :
  (StronglySorted (λ a b, domain_id a ≤ domain_id b) (get_domains st) ∧
   get_domains st ≡ₚ domains st) ∧
  (StronglySorted (λ a b, domain_id a ≤ domain_id b)
     (get_domains_by_namespace namespace st) ∧
   get_domains_by_namespace namespace st ≡ₚ
     filter (λ d, domain_namespace d = namespace) (domains st)) ∧
  (StronglySorted (λ a b, topic_id a ≤ topic_id b)
     (get_topics_by_domain_id did st) ∧
   get_topics_by_domain_id did st ≡ₚ
     filter (λ t, topic_domain_id t = did) (topics st)).
Proof.
  unfold get_domains, get_domains_by_namespace, get_topics_by_domain_id.
  repeat split; first [apply order_by_StronglySorted|apply order_by_Permutation].
Qed.

(** X18.  [get_namespaces] lists every namespace once, and a namespace is listed
    exactly when [get_domains_by_namespace] finds a domain for it. *)
Theorem namespaces_listed_once (st : Session) :
  NoDup (get_namespaces st) ∧
  ∀ namespace,
    namespace ∈ get_namespaces st ↔ get_domains_by_namespace namespace st ≠ [].
Proof.
  split; [apply NoDup_remove_dups|]. intros namespace.
  unfold get_namespaces, get_domains_by_namespace.
  rewrite elem_of_remove_dups, list_elem_of_fmap. split.
  - intros (d & -> & Hd) Hnil.
    assert (d ∈ order_by domain_id
              (filter (λ d0, domain_namespace d0 = domain_namespace d)
                      (domains st))) as Hin.
    { rewrite order_by_Permutation. by apply list_elem_of_filter. }
    rewrite Hnil in Hin. by apply elem_of_nil in Hin.
  - intros Hne.
    destruct (order_by domain_id _) as [|d l] eqn:Hl; [done|].
    assert (d ∈ order_by domain_id
              (filter (λ d0, domain_namespace d0 = namespace) (domains st)))
      as Hin by (rewrite Hl; left).
    rewrite order_by_Permutation in Hin.
    apply list_elem_of_filter in Hin as [Hns Hd]. by exists d.
Qed.

(** X19.  For a stored domain, [get_latest_topic_of_domain] returns what
    [get_latest_topic_of_domain_id] returns for the domain's id: a topic of
    the domain whose id no topic of the domain exceeds, or nothing when the
    domain has no topic. *)
Theorem latest_topic_has_greatest_id (namespace source : string) (d : Domain)
    (st : Session) :
  get_domain_by_fullname namespace source st = Some d →
  get_latest_topic_of_domain namespace source st
    = (Ok (get_latest_topic_of_domain_id (domain_id d) st), st) ∧
  match get_latest_topic_of_domain_id (domain_id d) st with
  | Some t =>
      t ∈ topics st ∧ topic_domain_id t = domain_id d ∧
      ∀ t', t' ∈ topics st → topic_domain_id t' = domain_id d →
            topic_id t' ≤ topic_id t
  | None => ∀ t', t' ∈ topics st → topic_domain_id t' ≠ domain_id d
  end.
Proof.
  intros Hd. split.
  { unfold get_latest_topic_of_domain. by rewrite Hd. }
  unfold get_latest_topic_of_domain_id.
  destruct (first_by_desc topic_id _) as [t|] eqn:Ht.
  - pose proof (latest_topic_known _ _ _ Ht) as [? ?].
    repeat (split; [done|]). intros t' Ht' Hdom.
    apply (first_by_desc_max _ _ _ Ht). by apply list_elem_of_filter.
  - intros t' Ht' Hdom. apply first_by_desc_None in Ht.
    assert (t' ∈ filter (λ t, topic_domain_id t = domain_id d) (topics st))
      as Hin by (by apply list_elem_of_filter).
    rewrite Ht in Hin. by apply elem_of_nil in Hin.
Qed.

End RepositoryQueries.

(** ** More on registration: what a call does to the session *)

Section RegistrationEffects.
Import Repository.
Context {Json : Type} `{Models Json}.

Local Abbreviation Session := (Session Json).
Local Abbreviation AvroSchema := (AvroSchema Json).

Lemma _get_domain_or_create_detail namespace source owner_email
    (st st' : Session) (d : Domain) :
  _get_domain_or_create namespace source owner_email st = (Ok (Some d), st') →
  filter (λ d, domain_namespace d = namespace ∧ domain_source d = source)
         (domains st') = [d] ∧
  (st' = st ∨
   (filter (λ d, domain_namespace d = namespace ∧ domain_source d = source)
           (domains st) = [] ∧
    d = {| domain_id := next_id (domain_id <$> domains st);
           domain_namespace := namespace; domain_source := source;
           domain_owner_email := owner_email |} ∧
    st' = {| domains := domains st ++ [d]; topics := topics st;
             avro_schemas := avro_schemas st;
             avro_schema_elements := avro_schema_elements st |})).
Proof.
  intros Hrun. pose proof Hrun as Hrun'.
  apply _get_domain_or_create_run in Hrun'
    as (_ & _ & _ & [(d' & [= <-] & Hf & _) | ([=] & _)]).
  split; [done|]. revert Hrun. unfold _get_domain_or_create.
  destruct (filter _ (domains st)) as [|d0 [|d1 l]] eqn:Hf0.
  - unfold _create_domain_if_not_exist. case_decide as Hex.
    + apply Exists_exists in Hex as (x & Hx & HP).
      assert (x ∈ filter (λ d, domain_namespace d = namespace ∧
                               domain_source d = source) (domains st)) as Hin
        by (by apply list_elem_of_filter).
      rewrite Hf0 in Hin. by apply elem_of_nil in Hin.
    + intros [= <- <-]. by right.
  - intros [= <- <-]. by left.
  - discriminate.
Qed.

Lemma add_elements_appends (id : Z) (elements : list AvroSchemaElement) :
  ∀ rows, ∃ new,
    add_elements id elements rows = rows ++ new ∧
    Forall2 (λ e r, element_type r = element_type e ∧
                    element_key r = element_key e ∧
                    element_doc r = element_doc e ∧
                    element_avro_schema_id r = Some id ∧
                    is_Some (element_id r)) elements new.
Proof.
  induction elements as [|e es IH]; intros rows; simpl.
  - exists []. by rewrite app_nil_r.
  - destruct (IH (rows ++ [{| element_id := Some (next_id (omap element_id rows));
                             element_avro_schema_id := Some id;
                             element_type := element_type e;
                             element_key := element_key e;
                             element_doc := element_doc e |}]))
      as (new & -> & Hnew).
    eexists (_ :: new). split; [by rewrite <- app_assoc|].
    constructor; [|done]. simpl. by repeat split.
Qed.

Lemma latest_or_new_detail (J : Json) (tid : Z) (status : AvroSchemaStatus)
    (base : option Z) (st st' : Session) (r : result AvroSchema) :
  latest_or_new J tid status base st = (r, st') →
  (st' = st ∧
   ((∃ l, get_latest_schema_by_topic_id tid st = Some l ∧
          schema_avro_schema_json l = J ∧ schema_base_schema_id l = base ∧
          r = Ok l) ∨
    (existsb lacks_required_doc (create_schema_elements_from_json J) = true ∧
     r = Raise MissingDocException))) ∨
  (existsb lacks_required_doc (create_schema_elements_from_json J) = false ∧
   r = Ok {| schema_id := next_id (schema_id <$> avro_schemas st);
             schema_avro_schema_json := J; schema_topic_id := tid;
             schema_status := status; schema_base_schema_id := base |} ∧
   st' = {| domains := domains st; topics := topics st;
            avro_schemas :=
              avro_schemas st ++
                [{| schema_id := next_id (schema_id <$> avro_schemas st);
                    schema_avro_schema_json := J; schema_topic_id := tid;
                    schema_status := status; schema_base_schema_id := base |}];
            avro_schema_elements :=
              add_elements (next_id (schema_id <$> avro_schemas st))
                (create_schema_elements_from_json J)
                (avro_schema_elements st) |}).
Proof.
  assert (∀ r st',
    _create_avro_schema J tid status base st = (r, st') →
    (st' = st ∧
     existsb lacks_required_doc (create_schema_elements_from_json J) = true ∧
     r = Raise MissingDocException) ∨
    (existsb lacks_required_doc (create_schema_elements_from_json J) = false ∧
     r = Ok {| schema_id := next_id (schema_id <$> avro_schemas st);
               schema_avro_schema_json := J; schema_topic_id := tid;
               schema_status := status; schema_base_schema_id := base |} ∧
     st' = {| domains := domains st; topics := topics st;
              avro_schemas :=
                avro_schemas st ++
                  [{| schema_id := next_id (schema_id <$> avro_schemas st);
                      schema_avro_schema_json := J; schema_topic_id := tid;
                      schema_status := status;
                      schema_base_schema_id := base |}];
              avro_schema_elements :=
                add_elements (next_id (schema_id <$> avro_schemas st))
                  (create_schema_elements_from_json J)
                  (avro_schema_elements st) |})) as Hcreate.
  { intros r0 st0. unfold _create_avro_schema.
    destruct (existsb _ _) eqn:Hdoc; intros [= <- <-]; [by left|by right]. }
  unfold latest_or_new, bind, query.
  destruct (get_latest_schema_by_topic_id tid st) as [l|] eqn:Hl.
  - destruct (bool_decide (schema_avro_schema_json l = J)) eqn:HJ;
      [destruct (bool_decide (schema_base_schema_id l = base)) eqn:Hb|];
      simpl.
    + intros [= <- <-]. left. split; [done|]. left. exists l.
      apply bool_decide_eq_true in HJ, Hb. done.
    + intros [Hc|Hc]%Hcreate; [left|by right].
      destruct Hc as (-> & ? & ->). split; [done|]. by right.
    + intros [Hc|Hc]%Hcreate; [left|by right].
      destruct Hc as (-> & ? & ->). split; [done|]. by right.
  - intros [Hc|Hc]%Hcreate; [left|by right].
    destruct Hc as (-> & ? & ->). split; [done|]. by right.
Qed.

Lemma target_topic_detail (J : Json) (namespace source uuid4_hex : string)
    (d : Domain) (topic : option Topic) (st st' : Session)
    (r : result Topic) :
  (∀ t, topic = Some t → t ∈ topics st) →
  target_topic J namespace source uuid4_hex (Some d) topic st = (r, st') →
  (st' = st ∧
   ((∃ t, topic = Some t ∧ r = Ok t ∧
          is_schema_compatible_in_topic J (topic_name t) st = (Ok true, st)) ∨
    (r = Raise IntegrityError ∧
     Exists (λ t, topic_name t =
                  _construct_topic_name namespace source uuid4_hex)
            (topics st)))) ∨
  (r = Ok {| topic_id := next_id (topic_id <$> topics st);
             topic_name := _construct_topic_name namespace source uuid4_hex;
             topic_domain_id := domain_id d |} ∧
   st' = {| domains := domains st;
            topics :=
              topics st ++
                [{| topic_id := next_id (topic_id <$> topics st);
                    topic_name :=
                      _construct_topic_name namespace source uuid4_hex;
                    topic_domain_id := domain_id d |}];
            avro_schemas := avro_schemas st;
            avro_schema_elements := avro_schema_elements st |} ∧
   ¬ Exists (λ t, topic_name t =
                  _construct_topic_name namespace source uuid4_hex)
            (topics st) ∧
   (topic = None ∨
    ∃ t, topic = Some t ∧
         is_schema_compatible_in_topic J (topic_name t) st = (Ok false, st))).
Proof.
  intros Hknown.
  assert (∀ r st',
    _create_topic (_construct_topic_name namespace source uuid4_hex) (Some d) st
      = (r, st') →
    (st' = st ∧ r = Raise IntegrityError ∧
     Exists (λ t, topic_name t =
                  _construct_topic_name namespace source uuid4_hex)
            (topics st)) ∨
    (r = Ok {| topic_id := next_id (topic_id <$> topics st);
               topic_name := _construct_topic_name namespace source uuid4_hex;
               topic_domain_id := domain_id d |} ∧
     st' = {| domains := domains st;
              topics :=
                topics st ++
                  [{| topic_id := next_id (topic_id <$> topics st);
                      topic_name :=
                        _construct_topic_name namespace source uuid4_hex;
                      topic_domain_id := domain_id d |}];
              avro_schemas := avro_schemas st;
              avro_schema_elements := avro_schema_elements st |} ∧
     ¬ Exists (λ t, topic_name t =
                    _construct_topic_name namespace source uuid4_hex)
              (topics st))) as Hcreate.
  { intros r0 st0. unfold _create_topic. case_decide as Hex;
      intros [= <- <-]; [by left|by right]. }
  unfold target_topic. destruct topic as [t|].
  - destruct (get_topic_by_name_known t st) as (t' & Ht' & _ & _);
      [by apply Hknown|].
    destruct (is_schema_compatible_in_topic_run J (topic_name t) t' st Ht')
      as (b & Hrun & _).
    unfold bind. rewrite Hrun. destruct b; simpl.
    + intros [= <- <-]. left. split; [done|]. left. by exists t.
    + intros [(-> & -> & ?)|(-> & -> & ?)]%Hcreate.
      * left. split; [done|]. by right.
      * right. repeat (split; [done|]). right. by exists t.
  - intros [(-> & -> & ?)|(-> & -> & ?)]%Hcreate.
    + left. split; [done|]. by right.
    + right. repeat (split; [done|]). by left.
Qed.

(** The call, step by step. *)
Lemma register_run (J : Json) (namespace source owner_email : string)
    (status : AvroSchemaStatus) (base : option Z) (uuid4_hex : string)
    (st st' : Session) (r : result AvroSchema) :
  create_avro_schema_from_avro_json J namespace source owner_email status
    base uuid4_hex st = (r, st') →
  ((verify_avro_schema J).1 = false ∧ r = Raise ValueError ∧ st' = st) ∨
  ((verify_avro_schema J).1 = true ∧
   ((r = Raise MultipleResultsFound ∧ st' = st) ∨
    ∃ d st0,
      _get_domain_or_create namespace source owner_email st
        = (Ok (Some d), st0) ∧
      ∃ r2 st2,
        target_topic J namespace source uuid4_hex (Some d)
          (first_by_desc topic_id
             (filter (λ t, topic_domain_id t = domain_id d) (topics st0)))
          st0 = (r2, st2) ∧
        match r2 with
        | Raise e2 => r = Raise e2 ∧ st' = st2
        | Ok t => latest_or_new J (topic_id t) status base st2 = (r, st')
        end)).
Proof.
  rewrite create_avro_schema_from_avro_json_body.
  destruct (verify_avro_schema J).1 eqn:Hvalid; simpl;
    [|intros [= <- <-]; by left].
  intros Hrun. right. split; [done|].
  destruct (_get_domain_or_create namespace source owner_email st)
    as [r0 st0] eqn:H0.
  pose proof H0 as H0'. apply _get_domain_or_create_run in H0'
    as (_ & _ & _ & [(d & -> & Hf & _) | (-> & -> & _)]).
  2:{ rewrite (bind_raise _ _ _ _ _ H0) in Hrun. injection Hrun as <- <-.
      by left. }
  right. exists d, st0. split; [done|].
  rewrite (bind_run _ _ _ _ _ H0) in Hrun.
  rewrite (bind_run (_lock_domain (Some d)) _ st0 st0 tt) in Hrun by done.
  rewrite (bind_run _ _ _ _ _ (get_latest_topic_of_domain_run _ _ d st0 Hf))
    in Hrun.
  rewrite (bind_run (_lock_topic_and_schemas _) _ st0 st0 tt) in Hrun
    by (by destruct (first_by_desc _ _)).
  destruct (target_topic J namespace source uuid4_hex (Some d)
              (first_by_desc topic_id
                 (filter (λ t, topic_domain_id t = domain_id d) (topics st0)))
              st0) as [r2 st2] eqn:H2.
  exists r2, st2. split; [done|]. destruct r2 as [t|e2].
  - by rewrite (bind_run _ _ _ _ _ H2) in Hrun.
  - rewrite (bind_raise _ _ _ _ _ H2) in Hrun. by injection Hrun as <- <-.
Qed.

Lemma add_elements_prefix (id : Z) (elements rows : list AvroSchemaElement) :
  rows `prefix_of` add_elements id elements rows.
Proof.
  destruct (add_elements_appends id elements rows) as (new & -> & _).
  by apply prefix_app_r.
Qed.

Ltac solve_extension :=
  simpl; rewrite ?length_app; simpl;
  first [ done | lia | by apply prefix_app_r | apply add_elements_prefix
        | by (apply elem_of_app; right; left) ].

Lemma register_extends (J : Json)
    (namespace source owner_email : string) (status : AvroSchemaStatus)
    (base : option Z) (uuid4_hex : string) (st st' : Session)
    (r : result AvroSchema) :
  create_avro_schema_from_avro_json J namespace source owner_email status
    base uuid4_hex st = (r, st') →
  domains st `prefix_of` domains st' ∧
  topics st `prefix_of` topics st' ∧
  avro_schemas st `prefix_of` avro_schemas st' ∧
  avro_schema_elements st `prefix_of` avro_schema_elements st' ∧
  (length (domains st') ≤ S (length (domains st)))%nat ∧
  (length (topics st') ≤ S (length (topics st)))%nat ∧
  (length (avro_schemas st') ≤ S (length (avro_schemas st)))%nat ∧
  match r with
  | Raise _ =>
      avro_schemas st' = avro_schemas st ∧
      avro_schema_elements st' = avro_schema_elements st
  | Ok s =>
      s ∈ avro_schemas st' ∧ schema_avro_schema_json s = J ∧
      schema_base_schema_id s = base
  end.
Proof.
  intros Hrun.
  apply register_run in Hrun
    as [(_ & -> & ->) |
        (_ & [(-> & ->) | (d & st0 & H0 & r2 & st2 & H2 & Hrest)])];
    [by repeat split; solve_extension..|].
  apply _get_domain_or_create_detail in H0 as (Hf & H0).
  apply target_topic_detail in H2;
    [|by intros t Ht; apply latest_topic_known in Ht as [? ?]].
  destruct r2 as [t|e2].
  - apply latest_or_new_detail in Hrest
      as [(-> & [(l & Hl & HJ & Hb & ->)|(_ & ->)]) | (_ & -> & ->)].
    + apply latest_schema_known in Hl as (Hl & _).
      destruct H0 as [->|(_ & _ & ->)];
        destruct H2 as [(-> & _)|(_ & -> & _)];
        repeat split; solve_extension.
    + destruct H0 as [->|(_ & _ & ->)];
        destruct H2 as [(-> & _)|(_ & -> & _)];
        repeat split; solve_extension.
    + destruct H0 as [->|(_ & _ & ->)];
        destruct H2 as [(-> & _)|(_ & -> & _)];
        repeat split; solve_extension.
  - destruct Hrest as [-> ->].
    destruct H0 as [->|(_ & _ & ->)];
      destruct H2 as [(-> & _)|([=] & _)];
      repeat split; solve_extension.
Qed.

(** X21.  Whatever the outcome, a registration only appends: the rows that were
    stored stay as they are at the head of each relation, and at most one
    domain, one topic and one schema are added.  When the call raises, no
    schema and no element has been added; when it returns, the returned
    schema is stored and has the candidate's JSON and base. *)
Theorem register_only_appends (J : Json)
    (namespace source owner_email : string) (status : AvroSchemaStatus)
    (base : option Z) (uuid4_hex : string) (st st' : Session)
    (r : result AvroSchema) :
  create_avro_schema_from_avro_json J namespace source owner_email status
    base uuid4_hex st = (r, st') →
  domains st `prefix_of` domains st' ∧
  topics st `prefix_of` topics st' ∧
  avro_schemas st `prefix_of` avro_schemas st' ∧
  avro_schema_elements st `prefix_of` avro_schema_elements st' ∧
  (length (domains st') ≤ S (length (domains st)))%nat ∧
  (length (topics st') ≤ S (length (topics st)))%nat ∧
  (length (avro_schemas st') ≤ S (length (avro_schemas st)))%nat ∧
  match r with
  | Raise _ =>
      avro_schemas st' = avro_schemas st ∧
      avro_schema_elements st' = avro_schema_elements st
  | Ok s =>
      s ∈ avro_schemas st' ∧ schema_avro_schema_json s = J ∧
      schema_base_schema_id s = base
  end.
Proof. intros; eapply register_extends; eassumption. Qed.

(** X22.  A registration of a schema that fails validation raises
    [ValueError] and leaves the session as it was.  A registration of a valid
    schema raises nothing but [MultipleResultsFound] (session as before),
    [IntegrityError] (the generated topic name is taken) or
    [MissingDocException] (an element lacks its doc); in particular the
    lookups it makes never fail with [EntityNotFoundException]. *)
Theorem register_raises_only (J : Json)
    (namespace source owner_email : string) (status : AvroSchemaStatus)
    (base : option Z) (uuid4_hex : string) (st : Session) :
  if (verify_avro_schema J).1
  then
    ∀ e st',
      create_avro_schema_from_avro_json J namespace source owner_email status
        base uuid4_hex st = (Raise e, st') →
      e ∈ [MultipleResultsFound; IntegrityError; MissingDocException] ∧
      (e = MultipleResultsFound → st' = st) ∧
      (e = IntegrityError →
       Exists (λ t, topic_name t =
                    _construct_topic_name namespace source uuid4_hex)
              (topics st)) ∧
      (e = MissingDocException →
       existsb lacks_required_doc (create_schema_elements_from_json J) = true)
  else
    create_avro_schema_from_avro_json J namespace source owner_email status
      base uuid4_hex st = (Raise ValueError, st).
Proof.
  destruct (verify_avro_schema J).1 eqn:Hvalid.
  2:{ rewrite create_avro_schema_from_avro_json_body, Hvalid. done. }
  intros e st' Hrun.
  apply register_run in Hrun
    as [(Hv & _) |
        (_ & [([= ->] & ->) | (d & st0 & H0 & r2 & st2 & H2 & Hrest)])];
    [congruence| |].
  - split; [by repeat constructor|]. by repeat split.
  - pose proof H0 as H0'.
    apply _get_domain_or_create_run in H0' as (Ht0 & _).
    apply target_topic_detail in H2;
      [|by intros t Ht; apply latest_topic_known in Ht as [? ?]].
    destruct r2 as [t|e2].
    + apply latest_or_new_detail in Hrest
        as [(-> & [(l & _ & _ & _ & [=])|(Hdoc & [= ->])]) | (_ & [=] & _)].
      split; [by repeat constructor|]. by repeat split.
    + destruct Hrest as [[= ->] ->].
      destruct H2 as [(-> & [(t & _ & [=] & _)|([= ->] & Hex)])|([=] & _)].
      split; [by repeat constructor|]. repeat split; try done.
      intros _. by rewrite <- Ht0.
Qed.

(** *** The keys and references of the relations *)

Lemma next_id_fresh (ids : list Z) : next_id ids ∉ ids.
Proof. intros Hin. apply next_id_gt in Hin. lia. Qed.

Lemma NoDup_fmap_snoc {A B} (f : A → B) (l : list A) (x : A) :
  NoDup (f <$> l) → f x ∉ f <$> l → NoDup (f <$> (l ++ [x])).
Proof.
  intros Hnd Hx. rewrite fmap_app. apply NoDup_app. split; [done|].
  split; [|apply NoDup_singleton].
  intros y Hy Hyx%list_elem_of_singleton. by subst.
Qed.

Lemma consistent_add_domain (st : Session) (namespace source email : string) :
  consistent st →
  filter (λ d, domain_namespace d = namespace ∧ domain_source d = source)
         (domains st) = [] →
  consistent
    {| domains :=
         domains st ++
           [{| domain_id := next_id (domain_id <$> domains st);
               domain_namespace := namespace; domain_source := source;
               domain_owner_email := email |}];
       topics := topics st; avro_schemas := avro_schemas st;
       avro_schema_elements := avro_schema_elements st |}.
Proof.
  intros [Hdi Hdp Hti Htn Hsi Htd Hst] Hnone. constructor; simpl; try done.
  - apply NoDup_fmap_snoc; [done|]. apply next_id_fresh.
  - apply NoDup_fmap_snoc; [done|]. simpl.
    intros (d & [= Hns Hsrc] & Hd)%list_elem_of_fmap.
    assert (d ∈ filter (λ d, domain_namespace d = namespace ∧
                             domain_source d = source) (domains st)) as Hin
      by (by apply list_elem_of_filter).
    rewrite Hnone in Hin. by apply elem_of_nil in Hin.
  - intros t Ht. destruct (Htd t Ht) as (d & Hd & Hid).
    exists d. split; [|done]. apply elem_of_app. by left.
Qed.

Lemma consistent_add_topic (st : Session) (name : string) (d : Domain) :
  consistent st → d ∈ domains st →
  ¬ Exists (λ t, topic_name t = name) (topics st) →
  consistent
    {| domains := domains st;
       topics :=
         topics st ++ [{| topic_id := next_id (topic_id <$> topics st);
                          topic_name := name;
                          topic_domain_id := domain_id d |}];
       avro_schemas := avro_schemas st;
       avro_schema_elements := avro_schema_elements st |}.
Proof.
  intros [Hdi Hdp Hti Htn Hsi Htd Hst] Hd Hfresh. constructor; simpl; try done.
  - apply NoDup_fmap_snoc; [done|]. apply next_id_fresh.
  - apply NoDup_fmap_snoc; [done|]. simpl.
    intros (t & Hname & Ht)%list_elem_of_fmap.
    apply Hfresh, Exists_exists. by exists t.
  - intros t [Ht|Ht%list_elem_of_singleton]%elem_of_app.
    + by apply Htd.
    + subst t. by exists d.
  - intros s Hs. destruct (Hst s Hs) as (t & Ht & Hid).
    exists t. split; [|done]. apply elem_of_app. by left.
Qed.

Lemma consistent_add_schema (st : Session) (J : Json) (t : Topic)
    (status : AvroSchemaStatus) (base : option Z)
    (rows : list AvroSchemaElement) :
  consistent st → t ∈ topics st →
  consistent
    {| domains := domains st; topics := topics st;
       avro_schemas :=
         avro_schemas st ++
           [{| schema_id := next_id (schema_id <$> avro_schemas st);
               schema_avro_schema_json := J; schema_topic_id := topic_id t;
               schema_status := status; schema_base_schema_id := base |}];
       avro_schema_elements := rows |}.
Proof.
  intros [Hdi Hdp Hti Htn Hsi Htd Hst] Ht. constructor; simpl; try done.
  - apply NoDup_fmap_snoc; [done|]. apply next_id_fresh.
  - intros s [Hs|Hs%list_elem_of_singleton]%elem_of_app.
    + by apply Hst.
    + subst s. by exists t.
Qed.

Lemma register_consistent (J : Json)
    (namespace source owner_email : string) (status : AvroSchemaStatus)
    (base : option Z) (uuid4_hex : string) (st st' : Session)
    (r : result AvroSchema) :
  consistent st →
  create_avro_schema_from_avro_json J namespace source owner_email status
    base uuid4_hex st = (r, st') →
  consistent st'.
Proof.
  intros Hst Hrun.
  apply register_run in Hrun
    as [(_ & _ & ->) |
        (_ & [(_ & ->) | (d & st0 & H0 & r2 & st2 & H2 & Hrest)])];
    [done..|].
  apply _get_domain_or_create_detail in H0 as (Hf & H0).
  assert (consistent st0) as Hst0.
  { destruct H0 as [->|(Hnone & -> & ->)]; [done|].
    by apply consistent_add_domain. }
  assert (d ∈ domains st0) as Hd.
  { assert (d ∈ filter (λ d, domain_namespace d = namespace ∧
                             domain_source d = source) (domains st0)) as Hin
      by (rewrite Hf; left).
    by apply list_elem_of_filter in Hin as [_ ?]. }
  pose proof H2 as H2'. apply target_topic_detail in H2';
    [|by intros t Ht; apply latest_topic_known in Ht as [? ?]].
  assert (consistent st2 ∧ ∀ t, r2 = Ok t → t ∈ topics st2) as [Hst2 Ht2].
  { destruct H2' as [(-> & [(t & Ht & -> & _)|(-> & _)])|(-> & -> & Hfresh & _)].
    - split; [done|]. intros ? [= <-].
      by apply latest_topic_known in Ht as [? ?].
    - by split.
    - split; [by apply consistent_add_topic|].
      intros ? [= <-]. simpl. apply elem_of_app. right. left. }
  destruct r2 as [t|e2]; [|by destruct Hrest as [_ ->]].
  apply latest_or_new_detail in Hrest as [(-> & _) | (_ & _ & ->)]; [done|].
  apply consistent_add_schema; [done|]. by apply Ht2.
Qed.

(** X23.  A registration keeps the keys and references of the relations intact,
    whatever its outcome: ids stay unique, [(namespace, source)] and topic
    names stay unique, every topic keeps a stored domain and every schema a
    stored topic. *)
Theorem register_keeps_consistent (J : Json)
    (namespace source owner_email : string) (status : AvroSchemaStatus)
    (base : option Z) (uuid4_hex : string) (st st' : Session)
    (r : result AvroSchema) :
  consistent st →
  create_avro_schema_from_avro_json J namespace source owner_email status
    base uuid4_hex st = (r, st') →
  consistent st'.
Proof. intros; eapply register_consistent; eassumption. Qed.

Lemma get_schema_by_id_stored (s : AvroSchema) (st : Session) :
  NoDup (schema_id <$> avro_schemas st) → s ∈ avro_schemas st →
  get_schema_by_id (schema_id s) st = Some s.
Proof.
  intros Hnd Hs. unfold get_schema_by_id, first.
  destruct (filter _ (avro_schemas st)) as [|x l] eqn:Hf.
  - assert (s ∈ filter (λ s0, schema_id s0 = schema_id s) (avro_schemas st))
      as Hin by (by apply list_elem_of_filter).
    rewrite Hf in Hin. by apply elem_of_nil in Hin.
  - assert (x ∈ filter (λ s0, schema_id s0 = schema_id s) (avro_schemas st))
      as Hin by (rewrite Hf; left).
    apply list_elem_of_filter in Hin as [Hid Hx]. simpl. f_equal.
    by eapply NoDup_fmap_eq.
Qed.

Lemma lacks_required_doc_rows (drafts rows : list AvroSchemaElement) :
  existsb lacks_required_doc drafts = false →
  Forall2 (λ e r, element_type r = element_type e ∧
                  element_doc r = element_doc e) drafts rows →
  Forall (λ r, lacks_required_doc r = false) rows.
Proof.
  intros Hdocs Hrows. induction Hrows as [|e r es rs Her _ IH]; [done|].
  simpl in Hdocs. apply orb_false_iff in Hdocs as [He Hes].
  constructor; [|by apply IH].
  unfold lacks_required_doc in *. by destruct Her as [-> ->].
Qed.

(** X24.  A registration that returns either returns a schema that was stored
    before, adding no schema and no element, or appends exactly one schema
    row with a fresh id and the given status, and for every element
    the JSON flattens to one element row with that element's type, key and
    doc, pointing at the new schema. *)
Theorem register_stores_schema_and_elements (J : Json)
    (namespace source owner_email : string) (status : AvroSchemaStatus)
    (base : option Z) (uuid4_hex : string) (st st' : Session)
    (s : AvroSchema) :
  create_avro_schema_from_avro_json J namespace source owner_email status
    base uuid4_hex st = (Ok s, st') →
  (s ∈ avro_schemas st ∧ avro_schemas st' = avro_schemas st ∧
   avro_schema_elements st' = avro_schema_elements st) ∨
  (schema_id s = next_id (schema_id <$> avro_schemas st) ∧
   schema_status s = status ∧
   avro_schemas st' = avro_schemas st ++ [s] ∧
   ∃ rows,
     avro_schema_elements st' = avro_schema_elements st ++ rows ∧
     Forall2 (λ e r, element_type r = element_type e ∧
                     element_key r = element_key e ∧
                     element_doc r = element_doc e ∧
                     element_avro_schema_id r = Some (schema_id s) ∧
                     is_Some (element_id r))
             (create_schema_elements_from_json J) rows).
Proof.
  intros Hrun.
  apply register_run in Hrun
    as [(_ & [=] & _) |
        (_ & [([=] & _) | (d & st0 & H0 & r2 & st2 & H2 & Hrest)])].
  pose proof H0 as H0'.
  apply _get_domain_or_create_run in H0' as (_ & Hs0 & He0 & _).
  pose proof H2 as H2'. apply target_topic_run in H2' as (_ & Hs2 & He2 & _);
    [|by intros t Ht; apply latest_topic_known in Ht as [? ?]].
  destruct r2 as [t|e2]; [|by destruct Hrest as [[=] _]].
  apply latest_or_new_detail in Hrest
    as [(-> & [(l & Hl & _ & _ & [= <-])|(_ & [=])]) | (_ & [= ->] & ->)].
  - left. apply latest_schema_known in Hl as (Hl & _).
    rewrite Hs2, Hs0 in Hl. rewrite Hs2, Hs0, He2, He0. done.
  - right. simpl. rewrite Hs2, Hs0, He2, He0. repeat (split; [done|]).
    destruct (add_elements_appends (next_id (schema_id <$> avro_schemas st))
                (create_schema_elements_from_json J)
                (avro_schema_elements st)) as (rows & -> & Hrows).
    by exists rows.
Qed.

(** X25.  A registration keeps every stored element of type record or field
    documented, whatever its outcome. *)
Theorem register_keeps_documented (J : Json)
    (namespace source owner_email : string) (status : AvroSchemaStatus)
    (base : option Z) (uuid4_hex : string) (st st' : Session)
    (r : result AvroSchema) :
  documented st →
  create_avro_schema_from_avro_json J namespace source owner_email status
    base uuid4_hex st = (r, st') →
  documented st'.
Proof.
  intros Hdoc Hrun.
  apply register_run in Hrun
    as [(_ & _ & ->) |
        (_ & [(_ & ->) | (d & st0 & H0 & r2 & st2 & H2 & Hrest)])];
    [done..|].
  pose proof H0 as H0'.
  apply _get_domain_or_create_run in H0' as (_ & _ & He0 & _).
  pose proof H2 as H2'. apply target_topic_run in H2' as (_ & _ & He2 & _);
    [|by intros t Ht; apply latest_topic_known in Ht as [? ?]].
  unfold documented in *.
  destruct r2 as [t|e2]; [|destruct Hrest as [_ ->]; by rewrite He2, He0].
  apply latest_or_new_detail in Hrest as [(-> & _) | (Hdocs & _ & ->)];
    [by rewrite He2, He0|].
  simpl. rewrite He2, He0.
  destruct (add_elements_appends (next_id (schema_id <$> avro_schemas st2))
              (create_schema_elements_from_json J)
              (avro_schema_elements st)) as (rows & -> & Hrows).
  apply Forall_app. split; [done|].
  apply (lacks_required_doc_rows _ _ Hdocs).
  eapply Forall2_impl; [exact Hrows|]. by intros e row (? & _ & ? & _).
Qed.

(** X26.  With keys and references intact, the schema a registration returns is
    the one [get_schema_by_id] finds under its id afterwards. *)
Theorem registered_schema_found_by_id (J : Json)
    (namespace source owner_email : string) (status : AvroSchemaStatus)
    (base : option Z) (uuid4_hex : string) (st st' : Session)
    (s : AvroSchema) :
  consistent st →
  create_avro_schema_from_avro_json J namespace source owner_email status
    base uuid4_hex st = (Ok s, st') →
  get_schema_by_id (schema_id s) st' = Some s.
Proof.
  intros Hst Hrun.
  pose proof (register_consistent _ _ _ _ _ _ _ _ _ _ Hst Hrun) as Hst'.
  pose proof (register_extends _ _ _ _ _ _ _ _ _ _ Hrun)
    as (_ & _ & _ & _ & _ & _ & _ & Hs & _).
  apply get_schema_by_id_stored; [|done]. by destruct Hst'.
Qed.

(** *** Where the schema goes *)

(** X27.  For a pair that already has a topic, [is_schema_compatible] tells where
    a registration that returns puts the schema: on [true] no topic is
    created and the schema belongs to the pair's latest topic; on [false]
    exactly one topic is created, named after the pair and the fresh suffix,
    in the same domain, and the schema belongs to it. *)
Theorem register_topic_choice (J : Json)
    (namespace source owner_email : string) (status : AvroSchemaStatus)
    (base : option Z) (uuid4_hex : string) (st st' : Session)
    (s : AvroSchema) (t : Topic) (b : bool) :
  get_latest_topic_of_domain namespace source st = (Ok (Some t), st) →
  is_schema_compatible J namespace source st = (Ok b, st) →
  create_avro_schema_from_avro_json J namespace source owner_email status
    base uuid4_hex st = (Ok s, st') →
  if b then topics st' = topics st ∧ schema_topic_id s = topic_id t
  else ∃ t', topics st' = topics st ++ [t'] ∧
             topic_name t' = _construct_topic_name namespace source uuid4_hex ∧
             topic_domain_id t' = topic_domain_id t ∧
             topic_id t' = next_id (topic_id <$> topics st) ∧
             schema_topic_id s = topic_id t'.
Proof.
  intros Hlatest Hcompat Hrun.
  unfold is_schema_compatible in Hcompat.
  rewrite (bind_run _ _ _ _ _ Hlatest) in Hcompat.
  apply register_run in Hrun
    as [(_ & [=] & _) |
        (_ & [([=] & _) | (d & st0 & H0 & r2 & st2 & H2 & Hrest)])].
  apply _get_domain_or_create_detail in H0 as (Hf & [->|(Hnone & _ & _)]).
  2:{ unfold get_latest_topic_of_domain, get_domain_by_fullname in Hlatest.
      by rewrite Hnone in Hlatest. }
  rewrite (get_latest_topic_of_domain_run _ _ d st Hf) in Hlatest.
  injection Hlatest as Hlatest. rewrite Hlatest in H2.
  pose proof (latest_topic_known _ _ _ Hlatest) as [Htin Htdom].
  apply target_topic_detail in H2; [|by intros ? [= <-]].
  assert (∀ tid st3, latest_or_new J tid status base st3 = (Ok s, st') →
                       topics st' = topics st3 ∧ schema_topic_id s = tid)
    as Hfinish.
  { intros tid st3 Hl. apply latest_or_new_detail in Hl
      as [(-> & [(l & Hl & _ & _ & [= <-])|(_ & [=])]) | (_ & [= ->] & ->)];
      [|done].
    by apply latest_schema_known in Hl as (_ & ? & _). }
  destruct H2 as [(-> & [(t0 & [= <-] & -> & Hc)|(-> & _)])
                 |(-> & -> & _ & [[=]|(t0 & [= <-] & Hc)])].
  - rewrite Hc in Hcompat. injection Hcompat as <-.
    by apply Hfinish in Hrest.
  - by destruct Hrest as [[=] _].
  - rewrite Hc in Hcompat. injection Hcompat as <-.
    apply Hfinish in Hrest as [-> ->]. simpl.
    eexists. split; [done|]. by repeat split.
Qed.

(** X28.  After a registration with an enabled status of a schema that is
    compatible with itself, into a session whose schemas belong to stored
    topics, the pair has a latest topic, the returned schema belongs to it,
    and [is_schema_compatible] answers true for the schema. *)
Theorem register_then_compatible (J : Json)
    (namespace source owner_email : string) (status : AvroSchemaStatus)
    (base : option Z) (uuid4_hex : string) (st st' : Session)
    (s : AvroSchema) :
  (∀ s, s ∈ avro_schemas st →
        ∃ t, t ∈ topics st ∧ topic_id t = schema_topic_id s) →
  status ≠ DISABLED →
  is_full_compatible J J = true →
  create_avro_schema_from_avro_json J namespace source owner_email status
    base uuid4_hex st = (Ok s, st') →
  (∃ t, get_latest_topic_of_domain namespace source st' = (Ok (Some t), st') ∧
        topic_id t = schema_topic_id s) ∧
  is_schema_compatible J namespace source st' = (Ok true, st').
Proof.
  intros Hwf Hen Hrefl Hrun.
  destruct (register_settles _ _ _ _ _ _ _ _ _ _ Hwf Hen Hrefl Hrun)
    as (_ & d & t & Hf & Ht & Hcompat & Hlatest & _).
  pose proof (get_latest_topic_of_domain_run _ _ d st' Hf) as Hget.
  rewrite Ht in Hget. split.
  - exists t. split; [done|].
    by apply latest_schema_known in Hlatest as (_ & ? & _).
  - unfold is_schema_compatible. by rewrite (bind_run _ _ _ _ _ Hget).
Qed.

(** X29.  After such a registration into a session with keys and references
    intact, every enabled schema of the topic the returned schema belongs to
    is fully compatible with the candidate. *)
Theorem register_topic_stays_compatible (J : Json)
    (namespace source owner_email : string) (status : AvroSchemaStatus)
    (base : option Z) (uuid4_hex : string) (st st' : Session)
    (s : AvroSchema) :
  consistent st →
  status ≠ DISABLED →
  is_full_compatible J J = true →
  create_avro_schema_from_avro_json J namespace source owner_email status
    base uuid4_hex st = (Ok s, st') →
  ∀ e, e ∈ avro_schemas st' → schema_topic_id e = schema_topic_id s →
       schema_status e ≠ DISABLED →
       is_full_compatible (schema_avro_schema_json e) J = true.
Proof.
  intros Hst Hen Hrefl Hrun.
  pose proof (register_consistent _ _ _ _ _ _ _ _ _ _ Hst Hrun) as Hst'.
  destruct (register_settles _ _ _ _ _ _ _ _ _ _
              (schemas_have_topic _ Hst) Hen Hrefl Hrun)
    as (_ & d & t & Hf & Ht & Hcompat & Hlatest & _).
  apply latest_topic_known in Ht as [Ht _].
  apply latest_schema_known in Hlatest as (_ & Htid & _).
  pose proof (get_topic_by_name_unique t st' (topic_names_unique _ Hst') Ht)
    as Hget.
  destruct (is_schema_compatible_in_topic_run J (topic_name t) t st' Hget)
    as (b & Hb & Hiff).
  rewrite Hb in Hcompat. injection Hcompat as ->.
  intros e He Hetid Heen. apply Hiff; [done|done|congruence|done].
Qed.

End RegistrationEffects.

(** ** Registration of an undocumented schema *)

Section RegistrationFailure.
Import Repository.
Context {Json : Type} `{Models Json}.

Local Abbreviation Session := (Session Json).
Local Abbreviation AvroSchema := (AvroSchema Json).

(** The compatibility check reads the topics and the schemas only. *)
Lemma is_schema_compatible_in_topic_frame (J : Json) (name : string)
    (st0 st : Session) (r : result bool) :
  topics st0 = topics st → avro_schemas st0 = avro_schemas st →
  is_schema_compatible_in_topic J name st0 = (r, st0) →
  is_schema_compatible_in_topic J name st = (r, st).
Proof.
  intros Ht Hs.
  unfold is_schema_compatible_in_topic, bind, get_schemas_by_topic_name,
    get_topic_by_name.
  rewrite Ht, Hs. destruct (first _) as [t|]; simpl; by intros [= <-].
Qed.

(** C2.  A valid candidate with an undocumented record or field, registered
    into a session that has at most one domain for the pair, only documented
    schemas and no topic of the name about to be generated: the call raises
    [MissingDocException] and adds no schema and no element row.  By then it
    has added a domain row exactly when the pair had none, and a topic row
    in the pair's domain exactly when that domain had no topic or its latest
    topic is not compatible with the candidate; these rows are in the
    session when the exception leaves the function. *)
Theorem register_missing_doc (J : Json) (namespace source owner_email : string)
    (status : AvroSchemaStatus) (base : option Z) (uuid4_hex : string)
    (st : Session) :
  (verify_avro_schema J).1 = true →
  existsb lacks_required_doc (create_schema_elements_from_json J) = true →
  (length (filter (λ d, domain_namespace d = namespace ∧
                        domain_source d = source) (domains st)) ≤ 1)%nat →
  ¬ Exists (λ t, topic_name t =
                 _construct_topic_name namespace source uuid4_hex)
           (topics st) →
  (∀ s, s ∈ avro_schemas st →
        existsb lacks_required_doc
          (create_schema_elements_from_json (schema_avro_schema_json s))
        = false) →
  ∃ (d : Domain) (keeps_topic : bool) (st' : Session),
    create_avro_schema_from_avro_json J namespace source owner_email status
      base uuid4_hex st = (Raise MissingDocException, st') ∧
    avro_schemas st' = avro_schemas st ∧
    avro_schema_elements st' = avro_schema_elements st ∧
    match filter (λ d, domain_namespace d = namespace ∧
                       domain_source d = source) (domains st) with
    | [] =>
        d = {| domain_id := next_id (domain_id <$> domains st);
               domain_namespace := namespace; domain_source := source;
               domain_owner_email := owner_email |} ∧
        domains st' = domains st ++ [d]
    | _ =>
        get_domain_by_fullname namespace source st = Some d ∧
        domains st' = domains st
    end ∧
    (keeps_topic = true ↔
       ∃ t, first_by_desc topic_id
              (filter (λ t, topic_domain_id t = domain_id d) (topics st))
              = Some t ∧
            is_schema_compatible_in_topic J (topic_name t) st
              = (Ok true, st)) ∧
    topics st' =
      if keeps_topic then topics st
      else topics st ++
             [{| topic_id := next_id (topic_id <$> topics st);
                 topic_name :=
                   _construct_topic_name namespace source uuid4_hex;
                 topic_domain_id := domain_id d |}].
Proof.
  intros Hvalid Hmiss Hone Hfresh Hdocs.
  rewrite create_avro_schema_from_avro_json_body, Hvalid.
  change (negb true) with false. cbv iota.
  destruct (_get_domain_or_create namespace source owner_email st)
    as [r1 st1] eqn:H1.
  pose proof H1 as H1'. apply _get_domain_or_create_run in H1'
    as (Ht1 & Hs1 & He1 & [(d & -> & Hf & _) | (_ & _ & Hlen)]); [|lia].
  pose proof (_get_domain_or_create_detail _ _ _ _ _ _ H1) as (_ & Hd1).
  rewrite (bind_run _ _ _ _ _ H1).
  rewrite (bind_run (_lock_domain (Some d)) _ st1 st1 tt) by done.
  rewrite (bind_run _ _ _ _ _ (get_latest_topic_of_domain_run _ _ d st1 Hf)).
  rewrite (bind_run (_lock_topic_and_schemas _) _ st1 st1 tt)
    by (by destruct (first_by_desc _ _)).
  assert (match filter (λ d, domain_namespace d = namespace ∧
                             domain_source d = source) (domains st) with
          | [] =>
              d = {| domain_id := next_id (domain_id <$> domains st);
                     domain_namespace := namespace; domain_source := source;
                     domain_owner_email := owner_email |} ∧
              domains st1 = domains st ++ [d]
          | _ =>
              get_domain_by_fullname namespace source st = Some d ∧
              domains st1 = domains st
          end) as Hdomain.
  { destruct Hd1 as [->|(Hnone & Hd & ->)].
    - unfold get_domain_by_fullname. by rewrite Hf.
    - by rewrite Hnone. }
  assert (∀ tid st2, avro_schemas st2 = avro_schemas st →
            latest_or_new J tid status base st2
              = (Raise MissingDocException, st2)) as Hfinish.
  { intros tid st2 Hs2.
    destruct (latest_or_new J tid status base st2) as [r3 st3] eqn:H3.
    apply latest_or_new_detail in H3
      as [(-> & [(l & Hl & HlJ & _)|(_ & ->)]) | (Hdoc & _)];
      [|done|congruence].
    apply latest_schema_known in Hl as (Hl & _).
    rewrite Hs2 in Hl. apply Hdocs in Hl. congruence. }
  destruct (target_topic J namespace source uuid4_hex (Some d)
              (first_by_desc topic_id
                 (filter (λ t, topic_domain_id t = domain_id d) (topics st1)))
              st1) as [r2 st2] eqn:H2.
  pose proof H2 as H2'.
  apply target_topic_detail in H2';
    [|by intros t Ht; apply latest_topic_known in Ht as [? ?]].
  rewrite Ht1 in H2'.
  destruct H2' as [(-> & [(t & Ht & -> & Hc)|(-> & Hex)])
                  |(-> & -> & _ & Hwhy)]; [| done |].
  - (* the latest topic is kept *)
    rewrite (bind_run _ _ _ _ _ H2).
    exists d, true, st1. split; [by apply Hfinish|].
    repeat (split; [done|]). split; [|done].
    split; [intros _|done]. exists t. split; [done|].
    by apply (is_schema_compatible_in_topic_frame J _ st1 st).
  - (* a topic is created *)
    rewrite (bind_run _ _ _ _ _ H2). simpl.
    exists d, false.
    eexists. split; [by apply Hfinish|]. simpl.
    repeat (split; [done|]). split; [|done].
    split; [done|]. intros (t & Ht & Hc).
    destruct Hwhy as [Hnone|(t0 & Ht0 & Hc0)]; [congruence|].
    rewrite Ht in Ht0. injection Ht0 as <-.
    apply (is_schema_compatible_in_topic_frame J _ st1 st) in Hc0; [|done..].
    congruence.
Qed.

End RegistrationFailure.

(** ** The further properties at sample inputs *)

Section MoreSampleRuns.
Import Repository RepositorySamples.

Lemma last_enabled_schema_is_latest_witness :
  last (get_schemas_by_topic_id 1 false three_schemas)
    = get_latest_schema_by_topic_id 1 three_schemas ∧
  get_latest_schema_by_topic_id 1 three_schemas
    = Some (schema 3 "u" READ_ONLY).
Proof.
  split; [|reflexivity].
  apply (last_enabled_schema_is_latest 1 three_schemas).
  simpl.
  repeat (apply NoDup_cons_2; [rewrite ?elem_of_cons, elem_of_nil; lia|]).
  apply NoDup_nil_2.
Defined.

Lemma unknown_topic_name_raises_witness :
  get_latest_schema_by_topic_name "n.s.ff" three_schemas
    = (Raise EntityNotFoundException, three_schemas).
Proof.
  apply (unknown_topic_name_raises "n.s.ff" three_schemas).
  simpl. intros t Ht. apply list_elem_of_singleton in Ht. subst t.
  simpl. discriminate.
Defined.

Lemma by_topic_name_as_by_topic_id_witness :
  get_latest_schema_by_topic_name "n.s.0a" three_schemas
    = (Ok (get_latest_schema_by_topic_id 1 three_schemas), three_schemas).
Proof.
  apply (by_topic_name_as_by_topic_id topic_1 three_schemas).
  - simpl. apply NoDup_singleton.
  - simpl. left.
Defined.

Lemma marks_of_different_schemas_commute_witness :
  _update_schema_status 3 DISABLED
    (_update_schema_status 1 READ_ONLY three_schemas).2
  = _update_schema_status 1 READ_ONLY
      (_update_schema_status 3 DISABLED three_schemas).2.
Proof.
  apply (marks_of_different_schemas_commute 1 3 READ_ONLY DISABLED
           three_schemas).
  lia.
Defined.

Lemma latest_topic_has_greatest_id_witness :
  get_latest_topic_of_domain "n" "s" three_schemas
    = (Ok (get_latest_topic_of_domain_id 1 three_schemas), three_schemas).
Proof.
  apply (latest_topic_has_greatest_id "n" "s" domain_n_s three_schemas).
  reflexivity.
Defined.

Lemma is_schema_compatible_unknown_domain_witness :
  is_schema_compatible "u" "n" "s" empty_session
    = (Raise EntityNotFoundException, empty_session).
Proof.
  apply (is_schema_compatible_unknown_domain "u" "n" "s" empty_session).
  reflexivity.
Defined.

Lemma first_run_result :
  first_run = (Ok (schema 1 "u" READ_AND_WRITE), first_run.2).
Proof. vm_compute. reflexivity. Qed.

Lemma rollover_run_result :
  rollover_run =
    (Ok {| schema_id := 2; schema_avro_schema_json := "v";
           schema_topic_id := 2; schema_status := READ_AND_WRITE;
           schema_base_schema_id := None |}, rollover_run.2).
Proof. vm_compute. reflexivity. Qed.

Lemma undocumented_run_result :
  undocumented_run = (Raise MissingDocException, undocumented_run.2).
Proof. vm_compute. reflexivity. Qed.

Lemma consistent_empty_session : consistent empty_session.
Proof.
  constructor; simpl; try apply NoDup_nil_2;
    intros ? Hin; by apply elem_of_nil in Hin.
Qed.

Lemma register_only_appends_witness :
  topics first_run.2 `prefix_of` topics rollover_run.2 ∧
  avro_schemas first_run.2 `prefix_of` avro_schemas rollover_run.2 ∧
  length (topics rollover_run.2) = 2%nat ∧
  length (avro_schemas rollover_run.2) = 2%nat.
Proof.
  destruct (register_only_appends "v" "n" "s" "owner@example.org"
              READ_AND_WRITE None "0b" first_run.2 rollover_run.2
              rollover_run.1)
    as (_ & Ht & Hs & _).
  - unfold rollover_run. apply surjective_pairing.
  - split; [exact Ht|]. split; [exact Hs|]. split; reflexivity.
Defined.

Lemma register_raises_only_witness :
  create_avro_schema_from_avro_json (H := strict_models) "!u" "n" "s"
    "owner@example.org" READ_AND_WRITE None "0a" first_run.2
    = (Raise ValueError, first_run.2) ∧
  MissingDocException
    ∈ [MultipleResultsFound; IntegrityError; MissingDocException].
Proof.
  split.
  - exact (register_raises_only (H := strict_models) "!u" "n" "s"
             "owner@example.org" READ_AND_WRITE None "0a" first_run.2).
  - pose proof (register_raises_only "?u" "n" "s" "owner@example.org"
                  READ_AND_WRITE None "0c" rollover_run.2) as Hvalid.
    simpl in Hvalid.
    destruct (Hvalid MissingDocException undocumented_run.2
                undocumented_run_result) as (Hin & _).
    exact Hin.
Defined.

Lemma register_keeps_consistent_witness : consistent first_run.2.
Proof.
  apply (register_keeps_consistent "u" "n" "s" "owner@example.org"
           READ_AND_WRITE None "0a" empty_session first_run.2 first_run.1).
  - exact consistent_empty_session.
  - unfold first_run. apply surjective_pairing.
Defined.

Lemma register_stores_schema_and_elements_witness :
  (schema 1 "u" READ_AND_WRITE ∈ avro_schemas empty_session ∧
   avro_schemas first_run.2 = avro_schemas empty_session ∧
   avro_schema_elements first_run.2 = avro_schema_elements empty_session) ∨
  (schema_id (schema 1 "u" READ_AND_WRITE)
     = next_id (schema_id <$> avro_schemas empty_session) ∧
   schema_status (schema 1 "u" READ_AND_WRITE) = READ_AND_WRITE ∧
   avro_schemas first_run.2
     = avro_schemas empty_session ++ [schema 1 "u" READ_AND_WRITE] ∧
   ∃ rows,
     avro_schema_elements first_run.2
       = avro_schema_elements empty_session ++ rows ∧
     Forall2 (λ e r, element_type r = element_type e ∧
                     element_key r = element_key e ∧
                     element_doc r = element_doc e ∧
                     element_avro_schema_id r
                       = Some (schema_id (schema 1 "u" READ_AND_WRITE)) ∧
                     is_Some (element_id r))
             (create_schema_elements_from_json "u") rows).
Proof.
  apply (register_stores_schema_and_elements "u" "n" "s" "owner@example.org"
           READ_AND_WRITE None "0a" empty_session first_run.2).
  exact first_run_result.
Defined.

Lemma register_keeps_documented_witness : documented first_run.2.
Proof.
  apply (register_keeps_documented "u" "n" "s" "owner@example.org"
           READ_AND_WRITE None "0a" empty_session first_run.2 first_run.1).
  - unfold documented. simpl. apply Forall_nil_2.
  - unfold first_run. apply surjective_pairing.
Defined.

Lemma registered_schema_found_by_id_witness :
  get_schema_by_id 1 first_run.2 = Some (schema 1 "u" READ_AND_WRITE).
Proof.
  apply (registered_schema_found_by_id "u" "n" "s" "owner@example.org"
           READ_AND_WRITE None "0a" empty_session first_run.2
           (schema 1 "u" READ_AND_WRITE)).
  - exact consistent_empty_session.
  - exact first_run_result.
Defined.

Lemma register_topic_choice_witness :
  ∃ t', topics rollover_run.2 = topics first_run.2 ++ [t'] ∧
        topic_name t' = "n.s.0b" ∧ topic_domain_id t' = 1 ∧ topic_id t' = 2.
Proof.
  destruct (register_topic_choice "v" "n" "s" "owner@example.org"
              READ_AND_WRITE None "0b" first_run.2 rollover_run.2
              {| schema_id := 2; schema_avro_schema_json := "v";
                 schema_topic_id := 2; schema_status := READ_AND_WRITE;
                 schema_base_schema_id := None |} topic_1 false)
    as (t' & Ht & Hname & Hdom & Hid & _).
  - vm_compute. reflexivity.
  - vm_compute. reflexivity.
  - exact rollover_run_result.
  - exists t'. split; [exact Ht|]. split; [exact Hname|].
    split; [exact Hdom|exact Hid].
Defined.

Lemma register_then_compatible_witness :
  is_schema_compatible "u" "n" "s" first_run.2 = (Ok true, first_run.2).
Proof.
  apply (register_then_compatible "u" "n" "s" "owner@example.org"
           READ_AND_WRITE None "0a" empty_session first_run.2
           (schema 1 "u" READ_AND_WRITE)).
  - simpl. intros s Hs. by apply elem_of_nil in Hs.
  - discriminate.
  - reflexivity.
  - exact first_run_result.
Defined.

Lemma consistent_one_topic :
  consistent (one_topic [schema 1 "ua" READ_AND_WRITE]).
Proof.
  constructor; simpl; try apply NoDup_singleton.
  - intros t Ht. apply list_elem_of_singleton in Ht. subst t.
    exists domain_n_s. split; [left|reflexivity].
  - intros s Hs. apply list_elem_of_singleton in Hs. subst s.
    exists topic_1. split; [left|reflexivity].
Qed.

Lemma family_run_result :
  family_run =
    (Ok {| schema_id := 2; schema_avro_schema_json := "ub";
           schema_topic_id := 1; schema_status := READ_ONLY;
           schema_base_schema_id := None |}, family_run.2).
Proof. vm_compute. reflexivity. Qed.

Lemma register_topic_stays_compatible_witness :
  avro_schemas family_run.2
    = [schema 1 "ua" READ_AND_WRITE;
       {| schema_id := 2; schema_avro_schema_json := "ub";
          schema_topic_id := 1; schema_status := READ_ONLY;
          schema_base_schema_id := None |}] ∧
  is_full_compatible (H := family_models)
    (schema_avro_schema_json (schema 1 "ua" READ_AND_WRITE)) "ub" = true.
Proof.
  split; [reflexivity|].
  apply (register_topic_stays_compatible (H := family_models) "ub" "n" "s"
           "owner@example.org" READ_ONLY None "0b"
           (one_topic [schema 1 "ua" READ_AND_WRITE]) family_run.2
           {| schema_id := 2; schema_avro_schema_json := "ub";
              schema_topic_id := 1; schema_status := READ_ONLY;
              schema_base_schema_id := None |}).
  - exact consistent_one_topic.
  - discriminate.
  - reflexivity.
  - exact family_run_result.
  - vm_compute. left.
  - reflexivity.
  - discriminate.
Defined.

Lemma register_missing_doc_witness :
  ∃ st',
    create_avro_schema_from_avro_json "?u" "n" "s" "owner@example.org"
      READ_AND_WRITE None "0b" (one_topic [schema 1 "u" READ_AND_WRITE])
      = (Raise MissingDocException, st') ∧
    avro_schemas st' = [schema 1 "u" READ_AND_WRITE] ∧
    avro_schema_elements st' = [] ∧
    domains st' = [domain_n_s] ∧
    topics st' = [topic_1; {| topic_id := 2; topic_name := "n.s.0b";
                              topic_domain_id := 1 |}].
Proof.
  destruct (register_missing_doc "?u" "n" "s" "owner@example.org"
              READ_AND_WRITE None "0b"
              (one_topic [schema 1 "u" READ_AND_WRITE]))
    as (d & keeps & st' & Hrun & Hs & He & Hd & Hkeeps & Ht).
  - reflexivity.
  - reflexivity.
  - simpl. lia.
  - simpl. rewrite Exists_cons, Exists_nil. vm_compute. intros [[=]|[]].
  - intros s Hs. apply list_elem_of_singleton in Hs. subst s. reflexivity.
  - exists st'. split; [exact Hrun|]. split; [exact Hs|]. split; [exact He|].
    vm_compute in Hd. destruct Hd as [[= <-] Hd]. split; [exact Hd|].
    destruct keeps.
    + destruct Hkeeps as [Hkeeps _].
      destruct (Hkeeps eq_refl) as (t & Hlatest & Hcompat).
      vm_compute in Hlatest. injection Hlatest as <-.
      vm_compute in Hcompat. discriminate Hcompat.
    + exact Ht.
Defined.

End MoreSampleRuns.
